(** * ChatKit SDK (mortgage-agent/frontend/chatkit.js)

    A shallow embedding of the embedded-page side of the ChatKit
    messaging bridge, and the properties of its handshake, queueing
    and command dispatch.

    The SDK is one object literal, [ChatKit], whose methods mutate its
    own fields and talk to three things outside it: the hosting window
    ([window.parent.postMessage], [window.addEventListener], [document.referrer]),
    the console, and functions supplied by the application (the
    [onReady] and [onError] callbacks and the command handlers).  The
    embedding threads the object's fields through a small state monad
    that also collects, in order, every call that leaves the object
    (the [Event]s) and carries JavaScript's abrupt completion ([Throw]).

    Modelling conventions.
    - JavaScript values are the data values a message can carry:
      [undefined], [null], booleans, integer numbers, strings and plain
      objects.  A plain object is the list of its own properties in
      insertion order, keys distinct; a read returns the first match.
    - Functions supplied by the application are opaque and do not
      re-enter the SDK: the embedding records that one is called and with
      which argument.  In the methods below the call returns; module
      [Raising] gives the send primitive, the drain and the dispatcher
      again for callbacks that may throw, and the methods below are its
      instance for callbacks that return.
    - [Date.now()] and [new Date()] read a clock; the reading is an
      extra argument of the method that makes it. *)

From stdpp Require Import base gmap strings list pretty.

Local Open Scope string_scope.
Local Open Scope Z_scope.
Local Open Scope list_scope.

(** ** JavaScript values *)

Set Warnings "-register-all".

Inductive JsValue : Type :=
| JUndefined
| JNull
| JBool (b : bool)
| JNum (n : Z)
| JStr (s : string)
| JObj (fields : list (string * JsValue)).

(** ToBoolean. *)
Definition truthy (v : JsValue) : bool :=
  match v with
  | JUndefined | JNull => false
  | JBool b => b
  | JNum n => negb (n =? 0)
  | JStr s => negb (String.eqb s "")
  | JObj _ => true
  end.

(** The [typeof] operator. *)
Definition typeof (v : JsValue) : string :=
  match v with
  | JUndefined => "undefined"
  | JNull => "object"
  | JBool _ => "boolean"
  | JNum _ => "number"
  | JStr _ => "string"
  | JObj _ => "object"
  end.

Fixpoint assoc (k : string) (fields : list (string * JsValue)) : option JsValue :=
  match fields with
  | [] => None
  | (k', v) :: rest => if String.eqb k k' then Some v else assoc k rest
  end.

(** [v.k] for a value that passed the object test.  On a plain data
    object a property that is not its own resolves on [Object.prototype];
    the names read by this program ([type], [command], [params],
    [pageId], [timestamp]) are not defined there, so the read yields
    [undefined]. *)
Definition getProp (v : JsValue) (k : string) : JsValue :=
  match v with
  | JObj fields => default JUndefined (assoc k fields)
  | _ => JUndefined
  end.

(** Whether the object has the property itself. *)
Definition hasProp (v : JsValue) (k : string) : bool :=
  match v with
  | JObj fields => bool_decide (is_Some (assoc k fields))
  | _ => false
  end.

(** [v === 'lit']: strict equality with a string literal. *)
Definition strictEqStr (v : JsValue) (lit : string) : bool :=
  match v with
  | JStr s => String.eqb s lit
  | _ => false
  end.

(** ToPropertyKey, as applied by [obj[v]].  A command name is a string,
    which is its own key.  For the other values the key is that of
    JavaScript for [undefined], [null], the booleans, the integers below
    10^21 in magnitude (printed in decimal) and the objects that have no
    [toString] of their own; the statements about command names are
    made for strings. *)
Definition toPropertyKey (v : JsValue) : string :=
  match v with
  | JUndefined => "undefined"
  | JNull => "null"
  | JBool true => "true"
  | JBool false => "false"
  | JNum n => pretty n
  | JStr s => s
  | JObj _ => "[object Object]"
  end.

(** ** Errors, application functions, events *)

Inductive JsError : Type :=
| TypeError (message : string)
| DOMException (name : string).

(** Application functions are known by identity only. *)
Definition Callback := nat.
Definition Handler := nat.

(** What a property read on the handler registry can resolve to, as far
    as [if (handler) handler(params)] can tell. *)
Inductive Looked : Type :=
| LFalsy
| LNotCallable
| LHandler (h : Handler)
| LNative (name : string) (throws : JsValue -> option JsError).

(** Every call that leaves the SDK object, in program order. *)
Inductive Event : Type :=
| PostMessage (message : JsValue) (targetOrigin : option string)
| ConsoleWarn (text : string) (args : list JsValue)
| ConsoleError (text : string) (e : JsError)
| AddEventListener
| CallOnReady (f : Callback)
| CallOnError (f : Callback) (e : JsError)
| CallHandler (h : Handler) (params : JsValue)
| CallNative (name : string) (params : JsValue).

(** ** The environment of the page *)

Record Env : Type := {
  (** [window.parent !== window] *)
  embedded : bool;
  (** [document.referrer] *)
  referrer : string;
  (** [new URL(u).origin] *)
  urlOrigin : string -> string;
  (** [new Date(t).toISOString()], [t] in milliseconds since the epoch *)
  toISOString : Z -> string;
  (** [window.parent.postMessage(message, targetOrigin)]: [Some e] when
      the call throws [e] (a message that cannot be cloned, a target
      origin that is not a valid origin) *)
  postMessage : JsValue -> option string -> option JsError;
  (** a read of property [k] on the application function [h], for a name
      other than [__proto__] *)
  functionGet : Handler -> string -> Looked;
  (** whether an assignment to [k] on an object inheriting from the
      application function [h] is refused (a read-only property up the
      chain, such as a function's [name] and [length]) *)
  functionRefusesSet : Handler -> string -> bool
}.

(** [event] as delivered to a [message] listener. *)
Record MessageEvent : Type := {
  data : JsValue;
  origin : string
}.

(** ** The SDK object *)

Record Config : Type := {
  pageId : JsValue;
  onReady : option Callback;
  onError : option Callback
}.

(** The prototype of the registry object. *)
Inductive Proto : Type :=
| ObjectPrototype
| FunctionProto (h : Handler).

(** [_commandHandlers: {}]: an object literal used as a map from command
    names to handlers.  A JavaScript object is more than its own
    properties: a read of any other name goes on to the prototype, here
    [Object.prototype], and an assignment to the name [__proto__]
    replaces the prototype instead of adding a property.  [own] holds
    the handlers assigned by [onCommand], [proto] the prototype. *)
Record Registry : Type := {
  own : gmap string Handler;
  proto : Proto
}.

Record ChatKit : Type := {
  _config : option Config;
  _parentOrigin : option string;
  _messageQueue : list JsValue;
  _commandHandlers : Registry;
  _isReady : bool
}.

(** The object literal as written. *)
Definition initial : ChatKit := {|
  _config := None;
  _parentOrigin := None;
  _messageQueue := [];
  _commandHandlers := {| own := ∅; proto := ObjectPrototype |};
  _isReady := false
|}.

(** ** The method monad

    A method body maps the object before the call to a completion, the
    object after it and the events it caused.  A [Throw] keeps the
    mutations and events made so far, as an exception does. *)

Inductive Completion (A : Type) : Type :=
| Normal (a : A)
| Throw (e : JsError).
Arguments Normal {A} a.
Arguments Throw {A} e.

Record Outcome (A : Type) : Type := {
  completion : Completion A;
  final : ChatKit;
  events : list Event
}.
Arguments completion {A} _.
Arguments final {A} _.
Arguments events {A} _.

Definition M (A : Type) : Type := ChatKit -> Outcome A.

#[global] Instance M_ret : MRet M := fun A a s =>
  {| completion := Normal a; final := s; events := [] |}.

#[global] Instance M_bind : MBind M := fun A B k m s =>
  let r := m s in
  match completion r with
  | Normal a =>
      let r' := k a (final r) in
      {| completion := completion r';
         final := final r';
         events := events r ++ events r' |}
  | Throw e => {| completion := Throw e; final := final r; events := events r |}
  end.

Definition this : M ChatKit := fun s =>
  {| completion := Normal s; final := s; events := [] |}.

Definition assign (f : ChatKit -> ChatKit) : M unit := fun s =>
  {| completion := Normal tt; final := f s; events := [] |}.

Definition emit (e : Event) : M unit := fun s =>
  {| completion := Normal tt; final := s; events := [e] |}.

Definition throw {A : Type} (e : JsError) : M A := fun s =>
  {| completion := Throw e; final := s; events := [] |}.

Definition set_config (c : Config) (s : ChatKit) : ChatKit :=
  {| _config := Some c; _parentOrigin := _parentOrigin s;
     _messageQueue := _messageQueue s;
     _commandHandlers := _commandHandlers s; _isReady := _isReady s |}.

Definition set_parentOrigin (o : string) (s : ChatKit) : ChatKit :=
  {| _config := _config s; _parentOrigin := Some o;
     _messageQueue := _messageQueue s;
     _commandHandlers := _commandHandlers s; _isReady := _isReady s |}.

Definition set_messageQueue (q : list JsValue) (s : ChatKit) : ChatKit :=
  {| _config := _config s; _parentOrigin := _parentOrigin s;
     _messageQueue := q;
     _commandHandlers := _commandHandlers s; _isReady := _isReady s |}.

Definition set_commandHandlers (r : Registry) (s : ChatKit) : ChatKit :=
  {| _config := _config s; _parentOrigin := _parentOrigin s;
     _messageQueue := _messageQueue s;
     _commandHandlers := r; _isReady := _isReady s |}.

Definition set_isReady (b : bool) (s : ChatKit) : ChatKit :=
  {| _config := _config s; _parentOrigin := _parentOrigin s;
     _messageQueue := _messageQueue s;
     _commandHandlers := _commandHandlers s; _isReady := b |}.

(** [this._config], for a following property access: reading a property
    of [null] throws. *)
Definition config : M Config :=
  s ← this;
  match _config s with
  | Some c => mret c
  | None => throw (TypeError "Cannot read properties of null")
  end.

(** ** The registry object

    [Object.prototype], as [handler(params)] sees it: the call passes no
    receiver, so the methods that convert [this] to an object throw. *)
Definition noThis : JsValue -> option JsError :=
  fun _ => Some (TypeError "Cannot convert undefined or null to object").

Definition isObject (v : JsValue) : bool :=
  match v with JObj _ => true | _ => false end.

Definition objectPrototype : list (string * Looked) := [
  ("constructor", LNative "Object" (fun _ => None));
  ("toString", LNative "Object.prototype.toString" (fun _ => None));
  ("toLocaleString", LNative "Object.prototype.toLocaleString" noThis);
  ("valueOf", LNative "Object.prototype.valueOf" noThis);
  ("hasOwnProperty", LNative "Object.prototype.hasOwnProperty" noThis);
  ("isPrototypeOf", LNative "Object.prototype.isPrototypeOf"
     (fun v => if isObject v then noThis v else None));
  ("propertyIsEnumerable", LNative "Object.prototype.propertyIsEnumerable" noThis);
  ("__defineGetter__", LNative "Object.prototype.__defineGetter__" noThis);
  ("__defineSetter__", LNative "Object.prototype.__defineSetter__" noThis);
  ("__lookupGetter__", LNative "Object.prototype.__lookupGetter__" noThis);
  ("__lookupSetter__", LNative "Object.prototype.__lookupSetter__" noThis)
].

Fixpoint tableGet (k : string) (t : list (string * Looked)) : Looked :=
  match t with
  | [] => LFalsy
  | (k', v) :: rest => if String.eqb k k' then v else tableGet k rest
  end.

Section Methods.

Variable env : Env.

(** [registry[k]].  An own property wins; [__proto__] is the accessor
    of [Object.prototype] and returns the registry's prototype; any
    other name resolves along the prototype chain. *)
Definition registryGet (r : Registry) (k : string) : Looked :=
  match own r !! k with
  | Some h => LHandler h
  | None =>
      match proto r with
      | ObjectPrototype =>
          if String.eqb k "__proto__" then LNotCallable
          else tableGet k objectPrototype
      | FunctionProto h =>
          if String.eqb k "__proto__" then LHandler h
          else functionGet env h k
      end
  end.

(** [registry[k] = handler] in strict code.  [__proto__] runs the
    setter of [Object.prototype], which replaces the prototype; any
    other name becomes (or updates) an own property, unless the name
    is read-only up the chain, which only a function prototype can
    cause. *)
Definition registrySet (r : Registry) (k : string) (handler : Handler)
  : Completion Registry :=
  if String.eqb k "__proto__" then
    Normal {| own := own r; proto := FunctionProto handler |}
  else
    match own r !! k, proto r with
    | None, FunctionProto h =>
        if functionRefusesSet env h k
        then Throw (TypeError "Cannot assign to read only property")
        else Normal {| own := <[k := handler]> (own r); proto := proto r |}
    | _, _ => Normal {| own := <[k := handler]> (own r); proto := proto r |}
    end.


(** *** Internal methods *)

Definition _detectParentOrigin : M unit :=
  if negb (embedded env) then
    emit (ConsoleWarn "[ChatKit] Not running in iframe" [])
  else
    assign (set_parentOrigin
              (if negb (String.eqb (referrer env) "")
               then urlOrigin env (referrer env) else "*")).

Definition _sendToParent (message : JsValue) : M unit :=
  if negb (embedded env) then mret tt
  else
    s ← this;
    emit (PostMessage message (_parentOrigin s));;
    match postMessage env message (_parentOrigin s) with
    | None => mret tt
    | Some e =>
        emit (ConsoleError "[ChatKit] Failed to send message:" e);;
        c ← config;
        match onError c with
        | Some f => emit (CallOnError f e)
        | None => mret tt
        end
    end.

(** *** Public methods *)

Definition embed_ready (c : Config) (date : Z) : JsValue :=
  JObj [("type", JStr "embed_ready");
        ("pageId", pageId c);
        ("timestamp", JStr (toISOString env date))].

Definition embed_data (c : Config) (data options : JsValue) (date : Z) : JsValue :=
  JObj [("type", JStr "embed_data");
        ("pageId", pageId c);
        ("data", data);
        ("options", if truthy options then options else JObj []);
        ("timestamp", JStr (toISOString env date))].

Definition embed_resize (c : Config) (height : JsValue) : JsValue :=
  JObj [("type", JStr "embed_resize");
        ("pageId", pageId c);
        ("height", height)].

Definition embed_close (c : Config) : JsValue :=
  JObj [("type", JStr "embed_close");
        ("pageId", pageId c)].

(** [init(config)]; [now] is the reading of [Date.now()], [date] that of
    [new Date()]. *)
Definition init (cfg : option Config) (now date : Z) : M ChatKit :=
  assign (set_config
            (default {| pageId := JUndefined; onReady := None; onError := None |} cfg));;
  c ← config;
  assign (set_config
            {| pageId := if truthy (pageId c) then pageId c
                         else JStr ("embed-" +:+ pretty now);
               onReady := onReady c;
               onError := onError c |});;
  _detectParentOrigin;;
  emit AddEventListener;;
  c ← config;
  _sendToParent (embed_ready c date);;
  this.

Definition sendData (data options : JsValue) (date : Z) : M unit :=
  c ← config;
  let message := embed_data c data options date in
  s ← this;
  if _isReady s then _sendToParent message
  else assign (fun s => set_messageQueue (_messageQueue s ++ [message]) s).

Definition sendMessage (text type : JsValue) (date : Z) : M unit :=
  sendData (JObj [("type", JStr "message");
                  ("messageType", if truthy type then type else JStr "info");
                  ("content", text)])
           JUndefined date.

Definition onCommand (command : JsValue) (handler : Handler) : M unit :=
  s ← this;
  match registrySet (_commandHandlers s) (toPropertyKey command) handler with
  | Normal r => assign (set_commandHandlers r)
  | Throw e => throw e
  end.

Definition resize (height : JsValue) : M unit :=
  c ← config;
  _sendToParent (embed_resize c height).

(** [bodyHeight] and [rootHeight] are the two scroll heights read from
    the document. *)
Definition autoResize (bodyHeight rootHeight : Z) : M unit :=
  resize (JNum (Z.max bodyHeight rootHeight)).

Definition close : M unit :=
  c ← config;
  _sendToParent (embed_close c).

(** *** The inbound dispatcher *)

(** [while (this._messageQueue.length > 0) { shift; send }].  Every
    iteration removes one message and nothing in the body adds one, so
    the length of the queue on entry bounds the iterations. *)
Fixpoint flush (fuel : nat) : M unit :=
  match fuel with
  | O => mret tt
  | S fuel' =>
      s ← this;
      match _messageQueue s with
      | [] => mret tt
      | queued :: rest =>
          assign (set_messageQueue rest);;
          _sendToParent queued;;
          flush fuel'
      end
  end.

(** [handler(message.params)] for what the registry read resolved to. *)
Definition invoke (command : JsValue) (handler : Looked) (params : JsValue) : M unit :=
  match handler with
  | LFalsy => emit (ConsoleWarn "[ChatKit] No handler for command:" [command])
  | LNotCallable => throw (TypeError "handler is not a function")
  | LHandler h => emit (CallHandler h params)
  | LNative name throws =>
      emit (CallNative name params);;
      match throws params with
      | Some e => throw e
      | None => mret tt
      end
  end.

Definition _handleMessage (event : MessageEvent) : M unit :=
  let message := data event in
  if negb (truthy message) || negb (String.eqb (typeof message) "object") then mret tt
  else
    (if strictEqStr (getProp message "type") "parent_ready" then
       assign (set_isReady true);;
       s ← this;
       flush (length (_messageQueue s));;
       c ← config;
       match onReady c with
       | Some f => emit (CallOnReady f)
       | None => mret tt
       end
     else mret tt);;
    (if strictEqStr (getProp message "type") "parent_command" then
       let command := getProp message "command" in
       s ← this;
       invoke command
              (registryGet (_commandHandlers s) (toPropertyKey command))
              (getProp message "params")
     else mret tt).

(** ** The page over time

    The window holds the SDK object and the [message] listeners attached
    to it: [init] attaches one bound [_handleMessage] per call.  The
    application calls the public methods; the window dispatches each
    incoming message event to every listener in turn, and an exception
    in one call or listener does not stop what comes after it. *)

Record Page : Type := {
  kit : ChatKit;
  listeners : nat
}.

Definition load : Page := {| kit := initial; listeners := 0 |}.

Inductive Call : Type :=
| Init (cfg : option Config) (now date : Z)
| SendData (data options : JsValue) (date : Z)
| SendMessage (text type : JsValue) (date : Z)
| OnCommand (command : JsValue) (handler : Handler)
| Resize (height : JsValue)
| AutoResize (bodyHeight rootHeight : Z)
| Close
| Message (event : MessageEvent).

Fixpoint dispatch (n : nat) (event : MessageEvent) (s : ChatKit) : ChatKit * list Event :=
  match n with
  | O => (s, [])
  | S n' =>
      let r := _handleMessage event s in
      let '(s', evs) := dispatch n' event (final r) in
      (s', events r ++ evs)
  end.

Definition method {A : Type} (m : M A) (p : Page) : Page * list Event :=
  let r := m (kit p) in
  ({| kit := final r; listeners := listeners p |}, events r).

Definition perform (c : Call) (p : Page) : Page * list Event :=
  match c with
  | Init cfg now date =>
      let r := init cfg now date (kit p) in
      ({| kit := final r; listeners := S (listeners p) |}, events r)
  | SendData d o date => method (sendData d o date) p
  | SendMessage text type date => method (sendMessage text type date) p
  | OnCommand command handler => method (onCommand command handler) p
  | Resize height => method (resize height) p
  | AutoResize b r => method (autoResize b r) p
  | Close => method close p
  | Message event =>
      let '(s, evs) := dispatch (listeners p) event (kit p) in
      ({| kit := s; listeners := listeners p |}, evs)
  end.

Fixpoint run (cs : list Call) (p : Page) : Page * list Event :=
  match cs with
  | [] => (p, [])
  | c :: rest =>
      let '(p', evs) := perform c p in
      let '(p'', evs') := run rest p' in
      (p'', evs ++ evs')
  end.

(** The messages handed to [window.parent.postMessage], in order. *)
Definition posted (evs : list Event) : list (JsValue * option string) :=
  omap (fun e => match e with PostMessage m o => Some (m, o) | _ => None end) evs.

End Methods.

(** ** Vocabulary of the statements *)

(** A well-formed handshake or command message: an object whose [type]
    is the given string. *)
Definition hasType (event : MessageEvent) (t : string) : Prop :=
  isObject (data event) = true ∧ getProp (data event) "type" = JStr t.

(** An inbound value the dispatcher has nothing to do with: [undefined]
    or [null], not an object, or an object whose [type] is neither of the
    two it knows. *)
Definition ignored (message : JsValue) : Prop :=
  message = JUndefined ∨ message = JNull ∨ typeof message ≠ "object" ∨
  (getProp message "type" ≠ JStr "parent_ready" ∧
   getProp message "type" ≠ JStr "parent_command").

(** The [onError] report of a failed send, when configured. *)
Definition reportError (s : ChatKit) (e : JsError) : list Event :=
  match _config s with
  | Some {| onError := Some f |} => [CallOnError f e]
  | _ => []
  end.

(** What one send of [message] shows outside the SDK object. *)
Definition delivery (env : Env) (s : ChatKit) (message : JsValue) : list Event :=
  if embedded env then
    PostMessage message (_parentOrigin s) ::
    match postMessage env message (_parentOrigin s) with
    | None => []
    | Some e =>
        ConsoleError "[ChatKit] Failed to send message:" e :: reportError s e
    end
  else [].

(** The [onReady] call of a handshake, when configured. *)
Definition readyCall (c : Config) : list Event :=
  match onReady c with
  | Some f => [CallOnReady f]
  | None => []
  end.


(** What a method call put on the wire or appended to the queue. *)
Definition produced {A : Type} (s : ChatKit) (r : Outcome A) : list JsValue :=
  map fst (posted (events r))
  ++ drop (length (_messageQueue s)) (_messageQueue (final r)).



(** A method keeps [P] when the object satisfies it after the call
    whenever it did before, however the call completes. *)
Definition keeps {A : Type} (P : ChatKit → Prop) (m : M A) : Prop :=
  ∀ s, P s → P (final (m s)).


(** The names a plain object inherits. *)
Definition inheritedNames : list string :=
  "__proto__" :: map fst objectPrototype.


(** *** A sample page, for the concrete cases *)

Definition hostOrigin : string := "https://chat.example".

Definition sampleEnv : Env := {|
  embedded := true;
  referrer := "https://chat.example/agent";
  urlOrigin := fun _ => hostOrigin;
  toISOString := fun t => "1970-01-01T00:00:00." +:+ pretty t +:+ "Z";
  postMessage := fun _ _ => None;
  functionGet := fun _ _ => LFalsy;
  functionRefusesSet := fun _ k => String.eqb k "name" || String.eqb k "length"
|}.

(** The same page with a host window that refuses every message. *)
Definition failingEnv : Env := {|
  embedded := true;
  referrer := "https://chat.example/agent";
  urlOrigin := fun _ => hostOrigin;
  toISOString := fun t => "1970-01-01T00:00:00." +:+ pretty t +:+ "Z";
  postMessage := fun _ _ => Some (DOMException "DataCloneError");
  functionGet := fun _ _ => LFalsy;
  functionRefusesSet := fun _ _ => false
|}.

Definition sampleConfig : Config :=
  {| pageId := JStr "loan-form-v1"; onReady := Some 1%nat; onError := Some 2%nat |}.

Definition parent_ready (from : string) : MessageEvent :=
  {| data := JObj [("type", JStr "parent_ready")]; origin := from |}.

Definition parent_command (name : string) (params : JsValue) : MessageEvent :=
  {| data := JObj [("type", JStr "parent_command");
                   ("command", JStr name);
                   ("params", params)];
     origin := hostOrigin |}.

(** The sample page after [ChatKit.init(sampleConfig)]. *)
Definition started : Page :=
  fst (perform sampleEnv (Init (Some sampleConfig) 100 101) load).

(** *** Vocabulary of the further properties *)

(** The origin [_detectParentOrigin] resolves in an embedded page. *)
Definition resolvedOrigin (env : Env) : string :=
  if negb (String.eqb (referrer env) "") then urlOrigin env (referrer env) else "*".

(** Every event of a method satisfies [Q], however the call completes. *)
Definition emits {A : Type} (Q : Event → Prop) (m : M A) : Prop :=
  ∀ s, Forall Q (events (m s)).

Definition notPost (e : Event) : Prop :=
  match e with
  | PostMessage _ _ => False
  | _ => True
  end.

(** An inbound event the dispatcher takes for the handshake. *)
Definition isHandshake (c : Call) : bool :=
  match c with
  | Message event =>
      isObject (data event) && strictEqStr (getProp (data event) "type") "parent_ready"
  | _ => false
  end.


(** The [init] calls of a sequence. *)
Fixpoint inits (calls : list Call) : nat :=
  match calls with
  | [] => O
  | Init _ _ _ :: rest => S (inits rest)
  | _ :: rest => inits rest
  end.

(** The [sendData] and [sendMessage] calls of a sequence. *)
Fixpoint dataCalls (calls : list Call) : nat :=
  match calls with
  | [] => O
  | SendData _ _ _ :: rest | SendMessage _ _ _ :: rest => S (dataCalls rest)
  | _ :: rest => dataCalls rest
  end.

(** The message is an [embed_data]. *)
Definition isData (m : JsValue) : bool :=
  strictEqStr (getProp m "type") "embed_data".

(** The [embed_data] messages handed to [postMessage]. *)
Definition dataPosted (evs : list Event) : list JsValue :=
  List.filter isData (map fst (posted evs)).

(** The errors reported to [onError], in order. *)
Definition reported (evs : list Event) : list (Callback * JsError) :=
  omap (fun e => match e with CallOnError f err => Some (f, err) | _ => None end) evs.

(** The payload [sendMessage] wraps its text in. *)
Definition messagePayload (text type : JsValue) : JsValue :=
  JObj [("type", JStr "message");
        ("messageType", if truthy type then type else JStr "info");
        ("content", text)].

(** A post goes to the origin [o]. *)
Definition postsTo (o : string) (e : Event) : Prop :=
  match e with
  | PostMessage _ target => target = Some o
  | _ => True
  end.

(** What relates the listeners, the configuration and the origin on
    every page the calls can reach in an embedded page. *)
Definition Addressed (env : Env) (p : Page) : Prop :=
  (_config (kit p) = None → listeners p = 0%nat)
  ∧ (is_Some (_config (kit p)) → _parentOrigin (kit p) = Some (resolvedOrigin env)).

(** The sample page outside any frame. *)
Definition topEnv : Env := {|
  embedded := false;
  referrer := "";
  urlOrigin := fun u => u;
  toISOString := fun t => "1970-01-01T00:00:00." +:+ pretty t +:+ "Z";
  postMessage := fun _ _ => None;
  functionGet := fun _ _ => LFalsy;
  functionRefusesSet := fun _ _ => false
|}.

(** The event is not a post of an [embed_data] message. *)
Definition noData (e : Event) : Prop :=
  match e with
  | PostMessage m _ => isData m = false
  | _ => True
  end.

(** A host window that cannot clone the number 2. *)
Definition flakyEnv : Env := {|
  embedded := true;
  referrer := "https://chat.example/agent";
  urlOrigin := fun _ => hostOrigin;
  toISOString := fun t => "1970-01-01T00:00:00." +:+ pretty t +:+ "Z";
  postMessage := fun m _ =>
    match getProp m "data" with
    | JNum 2 => Some (DOMException "DataCloneError")
    | _ => None
    end;
  functionGet := fun _ _ => LFalsy;
  functionRefusesSet := fun _ _ => false
|}.

(** A page on which [init] has not run. *)
Definition Inert (p : Page) : Prop :=
  _config (kit p) = None
  ∧ listeners p = 0%nat
  ∧ _isReady (kit p) = false
  ∧ _messageQueue (kit p) = [].

(** The message a call appends to the queue of a session that is not
    ready, under the configuration [c]. *)
Definition queuedBy (env : Env) (c : Config) (call : Call) : list JsValue :=
  match call with
  | SendData d o date => [embed_data env c d o date]
  | SendMessage text type date =>
      [embed_data env c (messagePayload text type) JUndefined date]
  | _ => []
  end.

(** ** Callbacks that throw

    Above, a function of the application called by the SDK returns.  The
    SDK protects none of these calls: [onError] is called inside the
    [catch] block of [_sendToParent], [onReady] and the command handlers
    in [_handleMessage], so an exception thrown by one of them leaves the
    method that called it.  [App] says, for each application function and
    argument, whether the call throws; module [Raising] gives the send
    primitive, the drain and the dispatcher again for such an
    application.  The methods above are those of [Raising] for
    [returning], the application whose functions all return. *)

Record App : Type := {
  (** [onError(e)] *)
  onErrorThrows : Callback → JsError → option JsError;
  (** [onReady()] *)
  onReadyThrows : Callback → option JsError;
  (** [handler(params)] *)
  handlerThrows : Handler → JsValue → option JsError
}.

Definition returning : App := {|
  onErrorThrows := fun _ _ => None;
  onReadyThrows := fun _ => None;
  handlerThrows := fun _ _ => None
|}.

(** A call of an application function: the call is made, then its
    exception, if any, is the caller's. *)
Definition callOut (e : Event) (outcome : option JsError) : M unit :=
  emit e;;
  match outcome with
  | Some err => throw err
  | None => mret tt
  end.

Module Raising.

Section Methods.

Variable app : App.
Variable env : Env.

Definition _sendToParent (message : JsValue) : M unit :=
  if negb (embedded env) then mret tt
  else
    s ← this;
    emit (PostMessage message (_parentOrigin s));;
    match postMessage env message (_parentOrigin s) with
    | None => mret tt
    | Some e =>
        emit (ConsoleError "[ChatKit] Failed to send message:" e);;
        c ← config;
        match onError c with
        | Some f => callOut (CallOnError f e) (onErrorThrows app f e)
        | None => mret tt
        end
    end.

Fixpoint flush (fuel : nat) : M unit :=
  match fuel with
  | O => mret tt
  | S fuel' =>
      s ← this;
      match _messageQueue s with
      | [] => mret tt
      | queued :: rest =>
          assign (set_messageQueue rest);;
          _sendToParent queued;;
          flush fuel'
      end
  end.

Definition invoke (command : JsValue) (handler : Looked) (params : JsValue) : M unit :=
  match handler with
  | LFalsy => emit (ConsoleWarn "[ChatKit] No handler for command:" [command])
  | LNotCallable => throw (TypeError "handler is not a function")
  | LHandler h => callOut (CallHandler h params) (handlerThrows app h params)
  | LNative name throws =>
      emit (CallNative name params);;
      match throws params with
      | Some e => throw e
      | None => mret tt
      end
  end.

Definition _handleMessage (event : MessageEvent) : M unit :=
  let message := data event in
  if negb (truthy message) || negb (String.eqb (typeof message) "object") then mret tt
  else
    (if strictEqStr (getProp message "type") "parent_ready" then
       assign (set_isReady true);;
       s ← this;
       flush (length (_messageQueue s));;
       c ← config;
       match onReady c with
       | Some f => callOut (CallOnReady f) (onReadyThrows app f)
       | None => mret tt
       end
     else mret tt);;
    (if strictEqStr (getProp message "type") "parent_command" then
       let command := getProp message "command" in
       s ← this;
       invoke command
              (registryGet env (_commandHandlers s) (toPropertyKey command))
              (getProp message "params")
     else mret tt).

End Methods.

End Raising.

(** The exception that leaves a send of [m] on the session [s], if any:
    the one [onError] throws when the post has failed. *)
Definition sendThrows (app : App) (env : Env) (s : ChatKit) (m : JsValue) : option JsError :=
  if embedded env then
    match postMessage env m (_parentOrigin s), _config s with
    | Some e, Some {| onError := Some f |} => onErrorThrows app f e
    | Some e, None => Some (TypeError "Cannot read properties of null")
    | _, _ => None
    end
  else None.

(** An application whose [onError] throws. *)
Definition throwingApp : App := {|
  onErrorThrows := fun _ _ => Some (TypeError "onError failed");
  onReadyThrows := fun _ => None;
  handlerThrows := fun _ _ => None
|}.

(** The configuration [init] installs. *)
Definition installed (cfg : option Config) (now : Z) : Config :=
  {| pageId := match cfg with
               | Some c0 => if truthy (pageId c0) then pageId c0
                            else JStr ("embed-" +:+ pretty now)
               | None => JStr ("embed-" +:+ pretty now)
               end;
     onReady := cfg ≫= onReady;
     onError := cfg ≫= onError |}.

(** The [embed_data] messages a sequence of calls builds, on a session
    whose configuration is [c] when the sequence starts. *)
Fixpoint dataOf (env : Env) (c : Config) (calls : list Call) : list JsValue :=
  match calls with
  | [] => []
  | Init cfg now _ :: rest => dataOf env (installed cfg now) rest
  | call :: rest => queuedBy env c call ++ dataOf env c rest
  end.

(** * Properties *)

(** ** The method monad *)

#[local] Arguments mbind : simpl never.
#[local] Arguments mret : simpl never.

Ltac mstep :=
  unfold mbind, M_bind, mret, M_ret, this, assign, emit, throw; simpl.

Lemma config_some (s : ChatKit) (c : Config) :
  _config s = Some c →
  config s = {| completion := Normal c; final := s; events := [] |}.
Proof. intros H. unfold config. mstep. rewrite H. reflexivity. Qed.

Lemma config_none (s : ChatKit) :
  _config s = None →
  config s = {| completion := Throw (TypeError "Cannot read properties of null");
                final := s; events := [] |}.
Proof. intros H. unfold config. mstep. rewrite H. reflexivity. Qed.

Lemma set_messageQueue_id (s : ChatKit) :
  set_messageQueue (_messageQueue s) s = s.
Proof. destruct s; reflexivity. Qed.

Lemma bind_normal {A B : Type} (m : M A) (k : A → M B) (s s' : ChatKit) a evs :
  m s = {| completion := Normal a; final := s'; events := evs |} →
  (m ≫= k) s =
    {| completion := completion (k a s');
       final := final (k a s');
       events := evs ++ events (k a s') |}.
Proof. intros H. unfold mbind, M_bind. rewrite H. reflexivity. Qed.

Lemma bind_throw {A B : Type} (m : M A) (k : A → M B) (s s' : ChatKit) e evs :
  m s = {| completion := Throw e; final := s'; events := evs |} →
  (m ≫= k) s = {| completion := Throw e; final := s'; events := evs |}.
Proof. intros H. unfold mbind, M_bind. rewrite H. reflexivity. Qed.

Lemma bind_assign {B : Type} (f : ChatKit → ChatKit) (k : unit → M B) (s : ChatKit) :
  (assign f ≫= k) s = k tt (f s).
Proof. unfold mbind, M_bind, assign. simpl. destruct (k tt (f s)); reflexivity. Qed.

Lemma bind_this {B : Type} (k : ChatKit → M B) (s : ChatKit) :
  (this ≫= k) s = k s s.
Proof. unfold mbind, M_bind, this. simpl. destruct (k s s); reflexivity. Qed.

Lemma bind_ret {A B : Type} (a : A) (k : A → M B) (s : ChatKit) :
  (mret a ≫= k) s = k a s.
Proof. unfold mbind, M_bind, mret, M_ret. simpl. destruct (k a s); reflexivity. Qed.

(** ** The outbound channel *)

Section Channel.

Variable env : Env.

(** On an initialised session a send always returns, leaves the object
    alone, and shows exactly [delivery]. *)
Lemma sendToParent_spec (s : ChatKit) (c : Config) (m : JsValue) :
  _config s = Some c →
  _sendToParent env m s =
    {| completion := Normal tt; final := s; events := delivery env s m |}.
Proof.
  intros Hc. unfold _sendToParent, delivery, reportError.
  destruct (embedded env); simpl; [|reflexivity].
  mstep. destruct (postMessage env m (_parentOrigin s)) as [e|]; simpl; [|reflexivity].
  unfold config. mstep. rewrite Hc. simpl.
  destruct c as [pid rdy [f|]]; reflexivity.
Qed.

Lemma posted_delivery (s : ChatKit) (m : JsValue) :
  posted (delivery env s m) =
    if embedded env then [(m, _parentOrigin s)] else [].
Proof.
  unfold delivery, reportError. destruct (embedded env); [|reflexivity].
  simpl. destruct (postMessage env m (_parentOrigin s)); simpl; [|reflexivity].
  destruct (_config s) as [[? ? [?|]]|]; reflexivity.
Qed.

Lemma posted_app (xs ys : list Event) :
  posted (xs ++ ys) = posted xs ++ posted ys.
Proof. unfold posted. apply omap_app. Qed.

Lemma posted_deliveries (s : ChatKit) (q : list JsValue) :
  posted (concat (map (delivery env s) q)) =
    if embedded env then map (fun m => (m, _parentOrigin s)) q else [].
Proof.
  induction q as [|m q IH]; simpl.
  - destruct (embedded env); reflexivity.
  - rewrite posted_app, IH, posted_delivery.
    destruct (embedded env); reflexivity.
Qed.

End Channel.

(** ** The inbound dispatcher *)

Section Dispatcher.
Variable env : Env.

Lemma flush_spec (fuel : nat) : ∀ (s : ChatKit) (c : Config),
  _config s = Some c →
  (length (_messageQueue s) ≤ fuel)%nat →
  flush env fuel s =
    {| completion := Normal tt;
       final := set_messageQueue [] s;
       events := concat (map (delivery env s) (_messageQueue s)) |}.
Proof.
  induction fuel as [|fuel IH]; intros s c Hc Hlen.
  - destruct (_messageQueue s) eqn:Hq; simpl in Hlen; [|lia].
    simpl. rewrite <- Hq, set_messageQueue_id. reflexivity.
  - simpl. unfold mbind at 1, M_bind at 1. simpl.
    destruct (_messageQueue s) as [|m rest] eqn:Hq.
    + simpl. rewrite <- Hq, set_messageQueue_id. reflexivity.
    + simpl in Hlen.
      unfold mbind at 1, M_bind at 1. simpl.
      erewrite bind_normal; [|apply (sendToParent_spec env _ c); exact Hc].
      rewrite (IH (set_messageQueue rest s) c Hc); [|simpl; lia].
      reflexivity.
Qed.

Lemma hasType_object (event : MessageEvent) (t : string) :
  hasType event t →
  negb (truthy (data event)) || negb (String.eqb (typeof (data event)) "object") = false.
Proof.
  intros [Ho _]. destruct (data event); simpl in Ho; try discriminate. reflexivity.
Qed.

Lemma handleMessage_ready (event : MessageEvent) (s : ChatKit) (c : Config) :
  hasType event "parent_ready" →
  _config s = Some c →
  _handleMessage env event s =
    {| completion := Normal tt;
       final := set_messageQueue [] (set_isReady true s);
       events := concat (map (delivery env s) (_messageQueue s)) ++ readyCall c |}.
Proof.
  intros Ht Hc. unfold _handleMessage.
  rewrite (hasType_object _ _ Ht). destruct Ht as [_ Ht]. rewrite Ht. simpl.
  erewrite bind_normal with (a := tt)
    (s' := set_messageQueue [] (set_isReady true s))
    (evs := concat (map (delivery env s) (_messageQueue s)) ++ readyCall c).
  - simpl. rewrite app_nil_r. reflexivity.
  - rewrite bind_assign, bind_this.
    erewrite bind_normal;
      [|apply (flush_spec _ (set_isReady true s) c); [exact Hc|reflexivity]].
    erewrite bind_normal; [|apply config_some; exact Hc].
    unfold readyCall. destruct (onReady c); reflexivity.
Qed.

Lemma handleMessage_command (event : MessageEvent) (s : ChatKit) :
  hasType event "parent_command" →
  _handleMessage env event s =
    invoke (getProp (data event) "command")
           (registryGet env (_commandHandlers s)
                        (toPropertyKey (getProp (data event) "command")))
           (getProp (data event) "params") s.
Proof.
  intros Ht. unfold _handleMessage.
  rewrite (hasType_object _ _ Ht). destruct Ht as [_ Ht]. rewrite Ht. simpl.
  rewrite bind_ret, bind_this. reflexivity.
Qed.

End Dispatcher.

(** ** Classification of inbound messages *)

Lemma strictEqStr_true (v : JsValue) (lit : string) :
  strictEqStr v lit = true ↔ v = JStr lit.
Proof.
  destruct v; simpl; try (split; [discriminate|intros [=]]).
  rewrite String.eqb_eq. split; [intros ->; reflexivity|intros [=]; assumption].
Qed.

Lemma strictEqStr_false (v : JsValue) (lit : string) :
  strictEqStr v lit = false ↔ v ≠ JStr lit.
Proof.
  rewrite <- strictEqStr_true. destruct (strictEqStr v lit); split; congruence.
Qed.

Lemma classify (event : MessageEvent) :
  hasType event "parent_ready" ∨ hasType event "parent_command" ∨ ignored (data event).
Proof.
  unfold hasType, ignored. destruct (data event) as [| | | | |fields] eqn:Hd; simpl;
    try (right; right; right; right; left; discriminate);
    try (right; right; left; reflexivity);
    try (right; right; right; left; reflexivity).
  destruct (strictEqStr (getProp (JObj fields) "type") "parent_ready") eqn:H1.
  { left. split; [reflexivity|]. apply strictEqStr_true. exact H1. }
  destruct (strictEqStr (getProp (JObj fields) "type") "parent_command") eqn:H2.
  { right; left. split; [reflexivity|]. apply strictEqStr_true. exact H2. }
  right; right; right; right; right. split; apply strictEqStr_false; assumption.
Qed.

Section Ignored.
Variable env : Env.

Lemma handleMessage_ignored (event : MessageEvent) (s : ChatKit) :
  ignored (data event) →
  _handleMessage env event s = {| completion := Normal tt; final := s; events := [] |}.
Proof.
  intros Hi. unfold _handleMessage.
  destruct (data event) as [| | | | |fields] eqn:Hd;
    simpl; rewrite ?orb_true_r; try reflexivity.
  destruct Hi as [Hi|[Hi|[Hi|[Hr Hc]]]]; try discriminate.
  { exfalso. apply Hi. reflexivity. }
  apply strictEqStr_false in Hr, Hc. simpl in Hr, Hc. rewrite Hr, Hc. reflexivity.
Qed.

End Ignored.

(** ** What each method does to the object *)

Section Frames.
Variable env : Env.

Lemma sendToParent_final (m : JsValue) (s : ChatKit) :
  final (_sendToParent env m s) = s.
Proof.
  unfold _sendToParent, config. mstep.
  destruct (embedded env); [|reflexivity]. simpl.
  destruct (postMessage env m (_parentOrigin s)); [|reflexivity]. simpl.
  destruct (_config s) as [[? ? [?|]]|]; reflexivity.
Qed.

Lemma invoke_final (command : JsValue) (h : Looked) (params : JsValue) (s : ChatKit) :
  final (invoke command h params s) = s.
Proof.
  destruct h as [| | |name throws]; try reflexivity.
  unfold invoke, mbind, M_bind. simpl. destruct (throws params); reflexivity.
Qed.

Lemma sendData_queued (s : ChatKit) (c : Config) (d o : JsValue) (date : Z) :
  _config s = Some c → _isReady s = false →
  sendData env d o date s =
    {| completion := Normal tt;
       final := set_messageQueue (_messageQueue s ++ [embed_data env c d o date]) s;
       events := [] |}.
Proof.
  intros Hc Hr. unfold sendData.
  erewrite bind_normal; [|apply config_some; exact Hc].
  rewrite bind_this, Hr. reflexivity.
Qed.

Lemma sendData_direct (s : ChatKit) (c : Config) (d o : JsValue) (date : Z) :
  _config s = Some c → _isReady s = true →
  sendData env d o date s =
    {| completion := Normal tt;
       final := s;
       events := delivery env s (embed_data env c d o date) |}.
Proof.
  intros Hc Hr. unfold sendData.
  erewrite bind_normal; [|apply config_some; exact Hc].
  rewrite bind_this, Hr. rewrite (sendToParent_spec env s c _ Hc). reflexivity.
Qed.


Lemma resize_spec (s : ChatKit) (c : Config) (height : JsValue) :
  _config s = Some c →
  resize env height s =
    {| completion := Normal tt;
       final := s;
       events := delivery env s (embed_resize c height) |}.
Proof.
  intros Hc. unfold resize.
  erewrite bind_normal; [|apply config_some; exact Hc].
  rewrite (sendToParent_spec env s c _ Hc). reflexivity.
Qed.

Lemma close_spec (s : ChatKit) (c : Config) :
  _config s = Some c →
  close env s =
    {| completion := Normal tt;
       final := s;
       events := delivery env s (embed_close c) |}.
Proof.
  intros Hc. unfold close.
  erewrite bind_normal; [|apply config_some; exact Hc].
  rewrite (sendToParent_spec env s c _ Hc). reflexivity.
Qed.

Lemma resize_final (s : ChatKit) (height : JsValue) :
  final (resize env height s) = s.
Proof.
  destruct (_config s) as [c|] eqn:Hc.
  - rewrite (resize_spec s c height Hc). reflexivity.
  - unfold resize. erewrite bind_throw; [|apply config_none; exact Hc]. reflexivity.
Qed.

Lemma close_final (s : ChatKit) :
  final (close env s) = s.
Proof.
  destruct (_config s) as [c|] eqn:Hc.
  - rewrite (close_spec s c Hc). reflexivity.
  - unfold close. erewrite bind_throw; [|apply config_none; exact Hc]. reflexivity.
Qed.


Lemma onCommand_final (command : JsValue) (handler : Handler) (s : ChatKit) :
  ∃ r, final (onCommand env command handler s) = set_commandHandlers r s.
Proof.
  unfold onCommand. rewrite bind_this.
  destruct (registrySet env (_commandHandlers s) (toPropertyKey command) handler) as [r|e].
  - exists r. reflexivity.
  - exists (_commandHandlers s). destruct s; reflexivity.
Qed.

(** The configuration [init] installs. *)
Lemma init_spec (cfg : option Config) (now date : Z) (s : ChatKit) :
  ∃ c s',
    init env cfg now date s =
      {| completion := Normal s';
         final := s';
         events := (if embedded env then []
                    else [ConsoleWarn "[ChatKit] Not running in iframe" []])
                   ++ AddEventListener :: delivery env s' (embed_ready env c date) |}
    ∧ _config s' = Some c
    ∧ _messageQueue s' = _messageQueue s
    ∧ _isReady s' = _isReady s
    ∧ _commandHandlers s' = _commandHandlers s.
Proof.
  unfold init. rewrite bind_assign.
  set (u := default {| pageId := JUndefined; onReady := None; onError := None |} cfg).
  erewrite bind_normal; [|apply config_some; reflexivity]. cbv beta.
  rewrite bind_assign.
  set (c := {| pageId := if truthy (pageId u) then pageId u
                         else JStr ("embed-" +:+ pretty now);
               onReady := onReady u; onError := onError u |}).
  unfold _detectParentOrigin.
  destruct (embedded env) eqn:He; cbn [negb].
  - rewrite bind_assign.
    set (s' := set_parentOrigin _ _).
    exists c, s'. split; [|repeat split; reflexivity].
    erewrite bind_normal; [|reflexivity]. cbv beta.
    erewrite bind_normal; [|apply config_some; reflexivity]. cbv beta.
    erewrite bind_normal; [|apply (sendToParent_spec env s' c); reflexivity].
    simpl. rewrite app_nil_r. reflexivity.
  - set (s' := set_config c (set_config u s)).
    exists c, s'. split; [|repeat split; reflexivity].
    erewrite bind_normal; [|reflexivity]. cbv beta.
    erewrite bind_normal; [|reflexivity]. cbv beta.
    erewrite bind_normal; [|apply config_some; reflexivity]. cbv beta.
    erewrite bind_normal; [|apply (sendToParent_spec env s' c); reflexivity].
    simpl. rewrite app_nil_r. reflexivity.
Qed.

End Frames.

(** ** Reachable pages *)

Section Reachable.
Variable env : Env.




End Reachable.

(** ** The ready flag only goes up *)

Create HintDb keeps.

Lemma keeps_bind {A B : Type} (P : ChatKit → Prop) (m : M A) (k : A → M B) :
  keeps P m → (∀ a, keeps P (k a)) → keeps P (m ≫= k).
Proof.
  intros Hm Hk s Hs. unfold mbind, M_bind.
  destruct (completion (m s)) eqn:Hcm; simpl; [apply Hk|]; apply Hm; exact Hs.
Qed.

Lemma keeps_ret {A : Type} (P : ChatKit → Prop) (a : A) : keeps P (mret a).
Proof. intros s Hs. exact Hs. Qed.

Lemma keeps_this (P : ChatKit → Prop) : keeps P this.
Proof. intros s Hs. exact Hs. Qed.

Lemma keeps_emit (P : ChatKit → Prop) (e : Event) : keeps P (emit e).
Proof. intros s Hs. exact Hs. Qed.

Lemma keeps_throw {A : Type} (P : ChatKit → Prop) (e : JsError) : keeps P (@throw A e).
Proof. intros s Hs. exact Hs. Qed.

Lemma keeps_config (P : ChatKit → Prop) : keeps P config.
Proof. intros s Hs. unfold config. rewrite bind_this. destruct (_config s); exact Hs. Qed.

Lemma keeps_assign (P : ChatKit → Prop) (f : ChatKit → ChatKit) :
  (∀ s, P s → P (f s)) → keeps P (assign f).
Proof. intros Hf s Hs. apply Hf. exact Hs. Qed.

#[local] Hint Resolve keeps_bind keeps_ret keeps_this keeps_emit keeps_throw
  keeps_config keeps_assign : keeps.

(** A property of the object that no method but [onCommand] can
    disturb: one that does not look at the fields the others write. *)
Section Keeping.

Variable env : Env.
Variable P : ChatKit → Prop.
Hypothesis P_config : ∀ c s, P s → P (set_config c s).
Hypothesis P_parentOrigin : ∀ o s, P s → P (set_parentOrigin o s).
Hypothesis P_messageQueue : ∀ q s, P s → P (set_messageQueue q s).
Hypothesis P_raise : ∀ s, P s → P (set_isReady true s).
Hypothesis P_onCommand : ∀ command handler, keeps P (onCommand env command handler).

Lemma keeps_sendToParent (m : JsValue) : keeps P (_sendToParent env m).
Proof. intros s Hs. rewrite sendToParent_final. exact Hs. Qed.

Lemma keeps_invoke (command : JsValue) (h : Looked) (params : JsValue) :
  keeps P (invoke command h params).
Proof. intros s Hs. rewrite invoke_final. exact Hs. Qed.

#[local] Hint Resolve keeps_sendToParent keeps_invoke : keeps.

Ltac keeping :=
  repeat first
    [ progress auto with keeps
    | apply keeps_bind
    | match goal with
      | |- ∀ _, _ => intro; cbv beta
      end
    | match goal with
      | |- keeps _ (match ?x with _ => _ end) => destruct x
      end ].

Lemma keeps_flush (fuel : nat) : keeps P (flush env fuel).
Proof. induction fuel as [|fuel IH]; simpl; keeping. Qed.

#[local] Hint Resolve keeps_flush : keeps.







End Keeping.




(** ** Pages the calls can reach *)

Section Pages.
Variable env : Env.









End Pages.

(** * The claims *)

(** ** Initialisation (C1) *)

(** C1, as stated, does not hold.  On the sample page the session is
    not ready when [init] runs, yet the [embed_ready] notification is not
    put in the pending queue, which is still empty after the call: it
    has already been posted to the host. *)
Lemma init_embed_ready_not_queued :
  let r := init sampleEnv (Some sampleConfig) 100 101 initial in
  _isReady initial = false
  ∧ _messageQueue (final r) = []
  ∧ posted (events r) = [(embed_ready sampleEnv sampleConfig 101, Some hostOrigin)].
Proof. repeat split. Qed.

Lemma init_final_origin (env : Env) (cfg : option Config) (now date : Z) (s : ChatKit) :
  _parentOrigin (final (init env cfg now date s)) =
    if embedded env then Some (resolvedOrigin env) else _parentOrigin s.
Proof.
  unfold init. rewrite bind_assign.
  erewrite bind_normal; [|apply config_some; reflexivity]. cbv beta.
  rewrite bind_assign. unfold _detectParentOrigin.
  destruct (embedded env) eqn:He; cbn [negb].
  - rewrite bind_assign.
    erewrite bind_normal; [|reflexivity]. cbv beta.
    erewrite bind_normal; [|apply config_some; reflexivity]. cbv beta.
    erewrite bind_normal; [|eapply sendToParent_spec; reflexivity].
    reflexivity.
  - erewrite bind_normal; [|reflexivity]. cbv beta.
    erewrite bind_normal; [|reflexivity]. cbv beta.
    erewrite bind_normal; [|apply config_some; reflexivity]. cbv beta.
    erewrite bind_normal; [|eapply sendToParent_spec; reflexivity].
    reflexivity.
Qed.

(** C1, amended: [init] hands the [embed_ready] notification straight to
    the send primitive, whatever the ready flag.  In an embedded page
    [init] first resolves the parent origin, to the origin of the
    referrer or to the wildcard when the document has none, and the
    notification is posted to the host during the call, at that origin;
    in a top-level page the origin is left as it was and the
    notification is dropped.  It is never appended to the pending queue,
    which [init] leaves as it was, as it does the ready flag. *)
Theorem init_sends_embed_ready_at_once
    (env : Env) (cfg : option Config) (now date : Z) (s : ChatKit) :
  let r := init env cfg now date s in
  ∃ c, _config (final r) = Some c
     ∧ completion r = Normal (final r)
     ∧ _messageQueue (final r) = _messageQueue s
     ∧ _isReady (final r) = _isReady s
     ∧ _parentOrigin (final r) =
         (if embedded env
          then Some (if String.eqb (referrer env) "" then "*"
                     else urlOrigin env (referrer env))
          else _parentOrigin s)
     ∧ posted (events r) =
         if embedded env
         then [(embed_ready env c date,
                Some (if String.eqb (referrer env) "" then "*"
                      else urlOrigin env (referrer env)))]
         else [].
Proof.
  pose proof (init_final_origin env cfg now date s) as Ho.
  destruct (init_spec env cfg now date s) as (c & s' & E & Hc & Hq & Hr & _).
  cbv zeta. rewrite E in *. cbn [final completion events] in *.
  assert (Hres : resolvedOrigin env =
                 if String.eqb (referrer env) "" then "*" else urlOrigin env (referrer env))
    by (unfold resolvedOrigin; destruct (String.eqb (referrer env) ""); reflexivity).
  rewrite Hres in Ho.
  exists c. repeat split; try assumption.
  rewrite posted_app. change (AddEventListener :: ?l) with ([AddEventListener] ++ l).
  rewrite posted_app, posted_delivery, Ho.
  destruct (embedded env); reflexivity.
Qed.

(** ** A further handshake message (C2) *)




(** ** Queueing and the drain (C3) *)



(** ** What the messages carry (C4) *)

(** C4, as stated, does not hold.  On the sample page [resize] and
    [close] each post one message, and neither message has a
    [timestamp]. *)
Lemma embed_resize_and_close_carry_no_timestamp :
  posted (events (resize sampleEnv (JNum 480) (kit started)))
  = [(JObj [("type", JStr "embed_resize");
            ("pageId", JStr "loan-form-v1");
            ("height", JNum 480)], Some hostOrigin)]
  ∧ hasProp (embed_resize sampleConfig (JNum 480)) "timestamp" = false
  ∧ posted (events (close sampleEnv (kit started)))
    = [(JObj [("type", JStr "embed_close");
              ("pageId", JStr "loan-form-v1")], Some hostOrigin)]
  ∧ hasProp (embed_close sampleConfig) "timestamp" = false.
Proof. repeat split. Qed.

(** C4, amended: every outbound message carries the session's [pageId].
    An [embed_ready] and an [embed_data] message also carry a
    [timestamp], the ISO string of the clock read when the method that
    builds the message is called (for an [embed_data] queued before the
    handshake that is the time of the [sendData] call, not of the
    drain).  An [embed_resize] and an [embed_close] message carry no
    [timestamp]. *)
Theorem outbound_message_fields (env : Env) (s : ChatKit) (c : Config) :
  _config s = Some c →
  (∀ cfg now date,
     ∃ c', _config (final (init env cfg now date s)) = Some c'
         ∧ produced s (init env cfg now date s) =
             (if embedded env then [embed_ready env c' date] else [])
         ∧ getProp (embed_ready env c' date) "type" = JStr "embed_ready"
         ∧ getProp (embed_ready env c' date) "pageId" = pageId c'
         ∧ getProp (embed_ready env c' date) "timestamp" = JStr (toISOString env date))
  ∧ (∀ d o date,
       produced s (sendData env d o date s) =
         (if _isReady s && negb (embedded env) then [] else [embed_data env c d o date])
       ∧ getProp (embed_data env c d o date) "type" = JStr "embed_data"
       ∧ getProp (embed_data env c d o date) "pageId" = pageId c
       ∧ getProp (embed_data env c d o date) "timestamp" = JStr (toISOString env date))
  ∧ (∀ height,
       produced s (resize env height s) =
         (if embedded env then [embed_resize c height] else [])
       ∧ getProp (embed_resize c height) "type" = JStr "embed_resize"
       ∧ getProp (embed_resize c height) "pageId" = pageId c
       ∧ hasProp (embed_resize c height) "timestamp" = false)
  ∧ (produced s (close env s) =
       (if embedded env then [embed_close c] else [])
     ∧ getProp (embed_close c) "type" = JStr "embed_close"
     ∧ getProp (embed_close c) "pageId" = pageId c
     ∧ hasProp (embed_close c) "timestamp" = false).
Proof.
  intros Hc. split; [|split; [|split]].
  - intros cfg now date.
    destruct (init_spec env cfg now date s) as (c' & s' & E & Hc' & Hq & _).
    exists c'. rewrite E. cbn [final]. split; [exact Hc'|].
    split; [|repeat split].
    unfold produced. cbn [final events]. rewrite Hq, drop_all, app_nil_r.
    rewrite posted_app. change (AddEventListener :: ?l) with ([AddEventListener] ++ l).
    rewrite posted_app, posted_delivery. destruct (embedded env); reflexivity.
  - intros d o date. split; [|repeat split].
    unfold produced. destruct (_isReady s) eqn:Hr.
    + rewrite (sendData_direct env s c d o date Hc Hr). cbn [final events].
      rewrite drop_all, app_nil_r, posted_delivery. destruct (embedded env); reflexivity.
    + rewrite (sendData_queued env s c d o date Hc Hr). cbn [final events].
      simpl. rewrite drop_app_length. reflexivity.
  - intros height. split; [|repeat split].
    unfold produced. rewrite (resize_spec env s c height Hc). cbn [final events].
    rewrite drop_all, app_nil_r, posted_delivery. destruct (embedded env); reflexivity.
  - split; [|repeat split].
    unfold produced. rewrite (close_spec env s c Hc). cbn [final events].
    rewrite drop_all, app_nil_r, posted_delivery. destruct (embedded env); reflexivity.
Qed.

(** The amended C4 on the sample page: the messages of a [sendData] and of a [resize]. *)
Lemma outbound_message_fields_witness :
  _config (kit started) = Some sampleConfig
  ∧ produced (kit started) (sendData sampleEnv (JNum 7) JUndefined 300 (kit started))
    = [JObj [("type", JStr "embed_data");
             ("pageId", JStr "loan-form-v1");
             ("data", JNum 7);
             ("options", JObj []);
             ("timestamp", JStr (toISOString sampleEnv 300))]]
  ∧ produced (kit started) (resize sampleEnv (JNum 480) (kit started))
    = [JObj [("type", JStr "embed_resize");
             ("pageId", JStr "loan-form-v1");
             ("height", JNum 480)]].
Proof.
  split; [reflexivity|].
  destruct (outbound_message_fields sampleEnv (kit started) sampleConfig eq_refl)
    as (_ & Hdata & Hresize & _).
  split.
  - exact (proj1 (Hdata (JNum 7) JUndefined 300)).
  - exact (proj1 (Hresize (JNum 480))).
Defined.

(** ** Resize and close before the handshake (C5) *)

(** C5: in an embedded page, on an initialised session that is not yet
    ready, [resize] and [close] each post their message to the host
    during the call, once, and leave the session, and so the pending
    queue and its length, exactly as they were. *)
Theorem resize_and_close_bypass_queue
    (env : Env) (s : ChatKit) (c : Config) (height : JsValue) :
  embedded env = true →
  _config s = Some c →
  _isReady s = false →
  (completion (resize env height s) = Normal tt
   ∧ posted (events (resize env height s)) = [(embed_resize c height, _parentOrigin s)]
   ∧ final (resize env height s) = s
   ∧ _messageQueue (final (resize env height s)) = _messageQueue s)
  ∧ (completion (close env s) = Normal tt
     ∧ posted (events (close env s)) = [(embed_close c, _parentOrigin s)]
     ∧ final (close env s) = s
     ∧ _messageQueue (final (close env s)) = _messageQueue s).
Proof.
  intros He Hc _.
  rewrite (resize_spec env s c height Hc), (close_spec env s c Hc).
  cbn [completion final events]. rewrite !posted_delivery, He.
  repeat split.
Qed.

(** C5 on the sample page, with one message waiting in the queue. *)
Lemma resize_and_close_bypass_queue_witness :
  let s := final (sendData sampleEnv (JNum 7) JUndefined 300 (kit started)) in
  length (_messageQueue s) = 1%nat
  ∧ posted (events (resize sampleEnv (JNum 480) s))
    = [(embed_resize sampleConfig (JNum 480), Some hostOrigin)]
  ∧ length (_messageQueue (final (resize sampleEnv (JNum 480) s))) = 1%nat
  ∧ posted (events (close sampleEnv s)) = [(embed_close sampleConfig, Some hostOrigin)]
  ∧ length (_messageQueue (final (close sampleEnv s))) = 1%nat.
Proof.
  cbv zeta.
  destruct (resize_and_close_bypass_queue sampleEnv
              (final (sendData sampleEnv (JNum 7) JUndefined 300 (kit started)))
              sampleConfig (JNum 480) eq_refl eq_refl eq_refl)
    as [(_ & Hp & _ & Hq) (_ & Hp' & _ & Hq')].
  split; [reflexivity|]. split; [exact Hp|].
  split; [rewrite Hq; reflexivity|]. split; [exact Hp'|].
  rewrite Hq'. reflexivity.
Defined.

(** ** A send that fails (C6) *)

Section RaisingChannel.

Variable app : App.
Variable env : Env.

(** A send on an initialised session shows what [delivery] says, leaves
    the object alone, and throws what [onError] throws. *)
Lemma raising_sendToParent_spec (s : ChatKit) (c : Config) (m : JsValue) :
  _config s = Some c →
  Raising._sendToParent app env m s =
    {| completion := match sendThrows app env s m with
                     | Some thrown => Throw thrown
                     | None => Normal tt
                     end;
       final := s;
       events := delivery env s m |}.
Proof.
  intros Hc. unfold Raising._sendToParent, sendThrows, delivery, reportError, callOut.
  destruct (embedded env); simpl; [|reflexivity].
  mstep. destruct (postMessage env m (_parentOrigin s)) as [e|]; simpl; [|reflexivity].
  unfold config. mstep. rewrite Hc. simpl.
  destruct c as [pid rdy [f|]]; simpl; [|reflexivity].
  destruct (onErrorThrows app f e); reflexivity.
Qed.

End RaisingChannel.

(** For an application whose functions return, the send primitive is
    the one of the main embedding. *)
Lemma returning_sendToParent (env : Env) (m : JsValue) (s : ChatKit) :
  Raising._sendToParent returning env m s = _sendToParent env m s.
Proof.
  unfold Raising._sendToParent, _sendToParent, callOut.
  destruct (embedded env); simpl; [|reflexivity].
  mstep. destruct (postMessage env m (_parentOrigin s)) as [e|]; simpl; [|reflexivity].
  unfold config. mstep.
  destruct (_config s) as [[pid rdy [f|]]|]; reflexivity.
Qed.

(** C6, as stated, does not hold.  On the sample page, with a host
    window that refuses every message and an [onError] callback that
    throws, the failure of the post is caught, but the exception of the
    callback leaves the send and reaches the caller. *)
Lemma throwing_onError_leaves_the_send :
  let s := final (init failingEnv (Some sampleConfig) 100 101 initial) in
  postMessage failingEnv (embed_close sampleConfig) (_parentOrigin s)
  = Some (DOMException "DataCloneError")
  ∧ Raising._sendToParent throwingApp failingEnv (embed_close sampleConfig) s =
      {| completion := Throw (TypeError "onError failed");
         final := s;
         events := [PostMessage (embed_close sampleConfig) (Some hostOrigin);
                    ConsoleError "[ChatKit] Failed to send message:"
                                 (DOMException "DataCloneError");
                    CallOnError 2%nat (DOMException "DataCloneError")] |}.
Proof. split; reflexivity. Qed.

(** C6, amended: on an initialised session in an embedded page, when
    the host's [postMessage] throws, the send primitive catches that
    error: it logs it, calls [onError] with it when one is configured
    and nothing otherwise, and leaves the session (ready flag, queue,
    handlers, origin, configuration) as it was.  The error of the post
    never reaches the caller.  The call of [onError] is not protected:
    the send returns normally when no [onError] is configured or when it
    returns, and throws what [onError] throws when it throws. *)
Theorem failed_send_is_caught_but_onError_is_not
    (app : App) (env : Env) (s : ChatKit) (c : Config) (message : JsValue) (e : JsError) :
  embedded env = true →
  _config s = Some c →
  postMessage env message (_parentOrigin s) = Some e →
  Raising._sendToParent app env message s =
    {| completion := match onError c with
                     | Some f =>
                         match onErrorThrows app f e with
                         | Some thrown => Throw thrown
                         | None => Normal tt
                         end
                     | None => Normal tt
                     end;
       final := s;
       events := PostMessage message (_parentOrigin s)
                 :: ConsoleError "[ChatKit] Failed to send message:" e
                 :: match onError c with
                    | Some f => [CallOnError f e]
                    | None => []
                    end |}.
Proof.
  intros He Hc Hp. rewrite (raising_sendToParent_spec app env s c message Hc).
  unfold sendThrows, delivery, reportError. rewrite He, Hp, Hc.
  destruct c as [pid rdy [f|]]; reflexivity.
Qed.

(** The amended C6 on the sample page, with a host window that refuses
    every message and an [onError] callback that returns. *)
Lemma failed_send_is_caught_but_onError_is_not_witness :
  let s := final (init failingEnv (Some sampleConfig) 100 101 initial) in
  Raising._sendToParent returning failingEnv (embed_close sampleConfig) s =
    {| completion := Normal tt;
       final := s;
       events := [PostMessage (embed_close sampleConfig) (Some hostOrigin);
                  ConsoleError "[ChatKit] Failed to send message:"
                               (DOMException "DataCloneError");
                  CallOnError 2%nat (DOMException "DataCloneError")] |}.
Proof.
  exact (failed_send_is_caught_but_onError_is_not returning failingEnv
           (final (init failingEnv (Some sampleConfig) 100 101 initial))
           sampleConfig (embed_close sampleConfig) (DOMException "DataCloneError")
           eq_refl eq_refl eq_refl).
Defined.

(** ** Messages the dispatcher ignores (C7) *)

(** C7: an inbound message that is [undefined] or [null], that is not
    an object, or whose [type] is neither [parent_ready] nor
    [parent_command], makes the dispatcher return at once: the session
    is unchanged and nothing is called or logged. *)
Theorem malformed_inbound_is_ignored (env : Env) (event : MessageEvent) (s : ChatKit) :
  ignored (data event) →
  _handleMessage env event s =
    {| completion := Normal tt; final := s; events := [] |}.
Proof. apply handleMessage_ignored. Qed.

(** C7 on the sample page: a string in place of a message object. *)
Lemma malformed_inbound_is_ignored_witness :
  ignored (JStr "parent_ready")
  ∧ _handleMessage sampleEnv {| data := JStr "parent_ready"; origin := hostOrigin |}
                   (kit started) =
      {| completion := Normal tt; final := kit started; events := [] |}.
Proof.
  assert (H : ignored (JStr "parent_ready")).
  { right; right; left. discriminate. }
  split; [exact H|].
  exact (malformed_inbound_is_ignored sampleEnv
           {| data := JStr "parent_ready"; origin := hostOrigin |} (kit started) H).
Defined.

(** ** Commands without a handler (C8) *)

Lemma tableGet_missing (k : string) (t : list (string * Looked)) :
  k ∉ map fst t → tableGet k t = LFalsy.
Proof.
  induction t as [|[k' v] t IH]; simpl; [reflexivity|].
  intros Hk. apply not_elem_of_cons in Hk as [Hne Hk].
  destruct (String.eqb k k') eqn:E; [apply String.eqb_eq in E; contradiction|].
  apply IH. exact Hk.
Qed.

(** What the code does for a command that resolves to nothing: a
    warning, and nothing else.  This is the case for every name without
    a registered handler that a plain object does not inherit. *)
Lemma unknown_command_warns (env : Env) (event : MessageEvent) (s : ChatKit) :
  hasType event "parent_command" →
  own (_commandHandlers s) !! toPropertyKey (getProp (data event) "command") = None →
  proto (_commandHandlers s) = ObjectPrototype →
  toPropertyKey (getProp (data event) "command") ∉ inheritedNames →
  _handleMessage env event s =
    {| completion := Normal tt;
       final := s;
       events := [ConsoleWarn "[ChatKit] No handler for command:"
                              [getProp (data event) "command"]] |}.
Proof.
  intros Ht Hown Hproto Hk. rewrite (handleMessage_command env event s Ht).
  unfold registryGet. rewrite Hown, Hproto.
  unfold inheritedNames in Hk. apply not_elem_of_cons in Hk as [Hne Hk].
  apply String.eqb_neq in Hne. rewrite Hne, (tableGet_missing _ _ Hk). reflexivity.
Qed.

(** C8 fails on the code.  The handler registry is an object literal, so
    a read of a name nobody registered still finds what the object
    inherits.  On the sample page, with no handler registered at all, a
    [parent_command] named [toString] logs no warning and calls the
    inherited function with the message's [params]; one named
    [valueOf] calls a function that throws; one named [__proto__] finds
    an object that is not a function, and the call throws.  The
    exception leaves the listener in each of the last two. *)
Theorem inherited_name_is_taken_for_a_handler :
  own (_commandHandlers (kit started)) = ∅
  ∧ _handleMessage sampleEnv (parent_command "toString" (JObj [])) (kit started) =
      {| completion := Normal tt;
         final := kit started;
         events := [CallNative "Object.prototype.toString" (JObj [])] |}
  ∧ _handleMessage sampleEnv (parent_command "valueOf" (JObj [])) (kit started) =
      {| completion := Throw (TypeError "Cannot convert undefined or null to object");
         final := kit started;
         events := [CallNative "Object.prototype.valueOf" (JObj [])] |}
  ∧ _handleMessage sampleEnv (parent_command "__proto__" (JObj [])) (kit started) =
      {| completion := Throw (TypeError "handler is not a function");
         final := kit started;
         events := [] |}
  ∧ _handleMessage sampleEnv (parent_command "reset" (JObj [])) (kit started) =
      {| completion := Normal tt;
         final := kit started;
         events := [ConsoleWarn "[ChatKit] No handler for command:" [JStr "reset"]] |}.
Proof. repeat split. Qed.

(** ** The ready flag and the handler registry (C9) *)








(** ** The origin of an inbound message (C10) *)

(** C10: the dispatcher reads nothing of a message event but its data.
    Two events with the same data, whatever their origins, give the same
    completion, the same session state (queue included) and the same
    calls, handlers and sends alike, whether one listener handles them
    or the window dispatches them to every listener. *)
Theorem dispatcher_ignores_origin (env : Env) (e1 e2 : MessageEvent) :
  data e1 = data e2 →
  (∀ s : ChatKit, _handleMessage env e1 s = _handleMessage env e2 s)
  ∧ (∀ p : Page, perform env (Message e1) p = perform env (Message e2) p).
Proof.
  intros Hd.
  assert (H : ∀ s, _handleMessage env e1 s = _handleMessage env e2 s).
  { intros s. unfold _handleMessage. rewrite Hd. reflexivity. }
  split; [exact H|].
  intros [s n]. unfold perform. cbn [kit listeners].
  replace (dispatch env n e2 s) with (dispatch env n e1 s); [reflexivity|].
  revert s. induction n as [|n IH]; intros s; simpl; [reflexivity|].
  rewrite <- H, IH. reflexivity.
Qed.

(** C10 on the sample page: the handshake arriving from the host and from elsewhere. *)
Lemma dispatcher_ignores_origin_witness :
  let queued := fst (perform sampleEnv (SendData (JNum 7) JUndefined 300) started) in
  perform sampleEnv (Message (parent_ready hostOrigin)) queued
  = perform sampleEnv (Message (parent_ready "https://evil.example")) queued
  ∧ posted (snd (perform sampleEnv (Message (parent_ready "https://evil.example")) queued))
    = [(embed_data sampleEnv sampleConfig (JNum 7) JUndefined 300, Some hostOrigin)].
Proof.
  cbv zeta. split.
  - exact (proj2 (dispatcher_ignores_origin sampleEnv (parent_ready hostOrigin)
                    (parent_ready "https://evil.example") eq_refl) _).
  - reflexivity.
Defined.

(** * Further properties of the code *)

(** ** Events of a method *)

Lemma emits_bind {A B : Type} (Q : Event → Prop) (m : M A) (k : A → M B) :
  emits Q m → (∀ a, emits Q (k a)) → emits Q (m ≫= k).
Proof.
  intros Hm Hk s. unfold mbind, M_bind.
  destruct (completion (m s)) eqn:Hcm; simpl; [|apply Hm].
  apply Forall_app. split; [apply Hm|apply Hk].
Qed.

Lemma emits_ret {A : Type} (Q : Event → Prop) (a : A) : emits Q (mret a).
Proof. intros s. constructor. Qed.

Lemma emits_this (Q : Event → Prop) : emits Q this.
Proof. intros s. constructor. Qed.

Lemma emits_assign (Q : Event → Prop) (f : ChatKit → ChatKit) : emits Q (assign f).
Proof. intros s. constructor. Qed.

Lemma emits_throw {A : Type} (Q : Event → Prop) (e : JsError) : emits Q (@throw A e).
Proof. intros s. constructor. Qed.

Lemma emits_config (Q : Event → Prop) : emits Q config.
Proof.
  intros s. unfold config. rewrite bind_this. destruct (_config s); constructor.
Qed.

Lemma emits_emit (Q : Event → Prop) (e : Event) : Q e → emits Q (emit e).
Proof. intros He s. repeat constructor. exact He. Qed.

Create HintDb emits.

#[local] Hint Resolve emits_bind emits_ret emits_this emits_assign emits_throw
  emits_config emits_emit : emits.

Lemma posted_notPost (evs : list Event) : Forall notPost evs → posted evs = [].
Proof.
  induction 1 as [|e evs He _ IH]; [reflexivity|].
  destruct e; simpl in *; try exact IH. contradiction.
Qed.

(** ** A page without a host *)

Section TopLevel.

Variable env : Env.
Hypothesis top : embedded env = false.

Ltac emitting :=
  repeat first
    [ progress auto with emits
    | apply emits_bind
    | match goal with
      | |- ∀ _, _ => intro; cbv beta
      end
    | match goal with
      | |- emits _ (match ?x with _ => _ end) => destruct x
      end
    | apply emits_emit; exact I ].

Lemma silent_sendToParent (m : JsValue) : emits notPost (_sendToParent env m).
Proof. unfold _sendToParent. rewrite top. simpl. emitting. Qed.

#[local] Hint Resolve silent_sendToParent : emits.

Lemma silent_flush (fuel : nat) : emits notPost (flush env fuel).
Proof. induction fuel as [|fuel IH]; simpl; emitting. Qed.

#[local] Hint Resolve silent_flush : emits.

Lemma silent_invoke (command : JsValue) (h : Looked) (params : JsValue) :
  emits notPost (invoke command h params).
Proof. unfold invoke. emitting. Qed.

#[local] Hint Resolve silent_invoke : emits.

Lemma silent_handleMessage (event : MessageEvent) : emits notPost (_handleMessage env event).
Proof. unfold _handleMessage. emitting. Qed.

Lemma silent_perform (call : Call) (p : Page) : Forall notPost (snd (perform env call p)).
Proof.
  destruct call as [cfg now date|d o date|text type date|command handler|height|b r| |event];
    unfold perform, method; cbn [snd].
  - generalize (kit p). change (emits notPost (init env cfg now date)).
    unfold init, _detectParentOrigin. rewrite top. simpl. emitting.
  - generalize (kit p). change (emits notPost (sendData env d o date)).
    unfold sendData. emitting.
  - generalize (kit p). change (emits notPost (sendMessage env text type date)).
    unfold sendMessage, sendData. emitting.
  - generalize (kit p). change (emits notPost (onCommand env command handler)).
    unfold onCommand. emitting.
  - generalize (kit p). change (emits notPost (resize env height)).
    unfold resize. emitting.
  - generalize (kit p). change (emits notPost (autoResize env b r)).
    unfold autoResize, resize. emitting.
  - generalize (kit p). change (emits notPost (close env)).
    unfold close. emitting.
  - destruct p as [s n]. cbn [kit listeners]. revert s.
    induction n as [|n IH]; intros s; simpl; [constructor|].
    specialize (IH (final (_handleMessage env event s))).
    destruct (dispatch env n event (final (_handleMessage env event s))) as [s' evs].
    simpl in *. apply Forall_app. split; [apply silent_handleMessage|exact IH].
Qed.

Lemma silent_run (calls : list Call) : ∀ p : Page, Forall notPost (snd (run env calls p)).
Proof.
  induction calls as [|call calls IH]; intros p; simpl; [constructor|].
  pose proof (silent_perform call p) as Hc.
  destruct (perform env call p) as [p' evs]. specialize (IH p').
  destruct (run env calls p') as [p'' evs']. simpl in *.
  apply Forall_app. split; assumption.
Qed.

End TopLevel.

(** X2: in a page that is not embedded, no sequence of calls and inbound
    messages, from any state, hands anything to [postMessage]. *)
Theorem top_level_page_never_posts (env : Env) (calls : list Call) (p : Page) :
  embedded env = false →
  posted (snd (run env calls p)) = [].
Proof. intros Htop. apply posted_notPost, silent_run. exact Htop. Qed.

(** X2 on a top-level sample page: initialisation, data, the handshake
    and a resize. *)
Lemma top_level_page_never_posts_witness :
  posted (snd (run topEnv [Init (Some sampleConfig) 100 101;
                           SendData (JNum 7) JUndefined 300;
                           Message (parent_ready hostOrigin);
                           SendData (JNum 8) JUndefined 301;
                           Resize (JNum 480)] load)) = [].
Proof. apply top_level_page_never_posts. reflexivity. Defined.

(** ** Methods called before [init] *)

Section Uninitialised.

Variable env : Env.

Lemma sendData_before_init (s : ChatKit) (d o : JsValue) (date : Z) :
  _config s = None →
  sendData env d o date s =
    {| completion := Throw (TypeError "Cannot read properties of null");
       final := s; events := [] |}.
Proof.
  intros Hc. unfold sendData. erewrite bind_throw; [|apply config_none; exact Hc].
  reflexivity.
Qed.

Lemma resize_before_init (s : ChatKit) (height : JsValue) :
  _config s = None →
  resize env height s =
    {| completion := Throw (TypeError "Cannot read properties of null");
       final := s; events := [] |}.
Proof.
  intros Hc. unfold resize. erewrite bind_throw; [|apply config_none; exact Hc].
  reflexivity.
Qed.

Lemma close_before_init (s : ChatKit) :
  _config s = None →
  close env s =
    {| completion := Throw (TypeError "Cannot read properties of null");
       final := s; events := [] |}.
Proof.
  intros Hc. unfold close. erewrite bind_throw; [|apply config_none; exact Hc].
  reflexivity.
Qed.

End Uninitialised.

(** X3: before [init] has run there is no configuration to read the
    page id from: [sendData], [sendMessage], [resize], [autoResize] and
    [close] each throw a [TypeError], and the call changes nothing, queues
    nothing and sends nothing. *)
Theorem methods_before_init_throw (env : Env) (s : ChatKit) :
  _config s = None →
  let thrown := {| completion := @Throw unit (TypeError "Cannot read properties of null");
                   final := s; events := [] |} in
  (∀ d o date, sendData env d o date s = thrown)
  ∧ (∀ text type date, sendMessage env text type date s = thrown)
  ∧ (∀ height, resize env height s = thrown)
  ∧ (∀ b r, autoResize env b r s = thrown)
  ∧ close env s = thrown.
Proof.
  intros Hc thrown. subst thrown. repeat split; intros.
  - apply sendData_before_init. exact Hc.
  - apply sendData_before_init. exact Hc.
  - apply resize_before_init. exact Hc.
  - apply resize_before_init. exact Hc.
  - apply close_before_init. exact Hc.
Qed.

(** X3 on the object as loaded. *)
Lemma methods_before_init_throw_witness :
  sendData sampleEnv (JNum 7) JUndefined 300 initial =
    {| completion := Throw (TypeError "Cannot read properties of null");
       final := initial; events := [] |}
  ∧ close sampleEnv initial =
    {| completion := Throw (TypeError "Cannot read properties of null");
       final := initial; events := [] |}.
Proof.
  destruct (methods_before_init_throw sampleEnv initial eq_refl) as (Hd & _ & _ & _ & Hc).
  split; [apply Hd|exact Hc].
Defined.

(** ** The origin of every post *)

Section Origin.

Variable env : Env.
Hypothesis framed : embedded env = true.

Lemma init_origin (cfg : option Config) (now date : Z) (s : ChatKit) :
  _parentOrigin (final (init env cfg now date s)) = Some (resolvedOrigin env).
Proof.
  unfold init. rewrite bind_assign.
  erewrite bind_normal; [|apply config_some; reflexivity]. cbv beta.
  rewrite bind_assign. unfold _detectParentOrigin. rewrite framed. cbn [negb].
  rewrite bind_assign.
  erewrite bind_normal; [|reflexivity]. cbv beta.
  erewrite bind_normal; [|apply config_some; reflexivity]. cbv beta.
  erewrite bind_normal; [|eapply sendToParent_spec; reflexivity].
  reflexivity.
Qed.

Lemma delivery_postsTo (s : ChatKit) (m : JsValue) :
  _parentOrigin s = Some (resolvedOrigin env) →
  Forall (postsTo (resolvedOrigin env)) (delivery env s m).
Proof.
  intros Ho. unfold delivery, reportError. rewrite framed.
  constructor; [exact Ho|].
  destruct (postMessage env m (_parentOrigin s)); [|constructor].
  constructor; [exact I|].
  destruct (_config s) as [[? ? [?|]]|]; repeat constructor.
Qed.

Lemma deliveries_postsTo (s : ChatKit) (q : list JsValue) :
  _parentOrigin s = Some (resolvedOrigin env) →
  Forall (postsTo (resolvedOrigin env)) (concat (map (delivery env s) q)).
Proof.
  intros Ho. induction q as [|m q IH]; simpl; [constructor|].
  apply Forall_app. split; [apply delivery_postsTo; exact Ho|exact IH].
Qed.

Lemma notPost_postsTo (o : string) (evs : list Event) :
  Forall notPost evs → Forall (postsTo o) evs.
Proof.
  intros H. eapply Forall_impl; [exact H|].
  intros [] Hp; simpl in *; try exact I. contradiction.
Qed.

Lemma handleMessage_postsTo (event : MessageEvent) (s : ChatKit) (c : Config) :
  _config s = Some c →
  _parentOrigin s = Some (resolvedOrigin env) →
  Forall (postsTo (resolvedOrigin env)) (events (_handleMessage env event s))
  ∧ _config (final (_handleMessage env event s)) = Some c
  ∧ _parentOrigin (final (_handleMessage env event s)) = Some (resolvedOrigin env).
Proof.
  intros Hc Ho. destruct (classify event) as [Hr|[Hm|Hi]].
  - rewrite (handleMessage_ready env event s c Hr Hc). cbn [events final].
    split; [|split; assumption].
    apply Forall_app. split; [apply deliveries_postsTo; exact Ho|].
    unfold readyCall. destruct (onReady c); repeat constructor.
  - rewrite (handleMessage_command env event s Hm), invoke_final.
    split; [|split; assumption].
    apply notPost_postsTo, silent_invoke.
  - rewrite (handleMessage_ignored env event s Hi). cbn [events final].
    split; [constructor|split; assumption].
Qed.

Lemma dispatch_postsTo (n : nat) (event : MessageEvent) : ∀ (s : ChatKit) (c : Config),
  _config s = Some c →
  _parentOrigin s = Some (resolvedOrigin env) →
  Forall (postsTo (resolvedOrigin env)) (snd (dispatch env n event s))
  ∧ _config (fst (dispatch env n event s)) = Some c
  ∧ _parentOrigin (fst (dispatch env n event s)) = Some (resolvedOrigin env).
Proof.
  induction n as [|n IH]; intros s c Hc Ho; simpl.
  - split; [constructor|split; assumption].
  - destruct (handleMessage_postsTo event s c Hc Ho) as (He & Hc' & Ho').
    destruct (IH _ c Hc' Ho') as (He2 & Hc2 & Ho2).
    destruct (dispatch env n event (final (_handleMessage env event s))) as [s' evs].
    simpl in *. split; [|split; assumption].
    apply Forall_app. split; assumption.
Qed.

Lemma perform_addressed (call : Call) (p : Page) :
  Addressed env p →
  Forall (postsTo (resolvedOrigin env)) (snd (perform env call p))
  ∧ Addressed env (fst (perform env call p)).
Proof.
  intros [Hn Ho]. destruct p as [s n]. cbn [kit listeners] in *.
  assert (Hkeep : ∀ evs, Forall (postsTo (resolvedOrigin env)) evs →
            Forall (postsTo (resolvedOrigin env)) (snd ({| kit := s; listeners := n |}, evs))
            ∧ Addressed env (fst ({| kit := s; listeners := n |}, evs))).
  { intros evs He. split; [exact He|]. split; assumption. }
  destruct call as [cfg now date|d o date|text type date|command handler|height|b r| |event];
    unfold perform, method; cbn [kit listeners].
  - pose proof (init_origin cfg now date s) as Hor.
    destruct (init_spec env cfg now date s) as (c & s' & E & Hc & _).
    rewrite E in *. cbn [final events fst snd] in *. split.
    + apply Forall_app. split; [destruct (embedded env); repeat constructor|].
      constructor; [exact I|]. apply delivery_postsTo. exact Hor.
    + split; cbn [kit listeners]; [congruence|intros _; exact Hor].
  - destruct (_config s) as [c|] eqn:Hc.
    + destruct (_isReady s) eqn:Hr.
      * rewrite (sendData_direct env s c d o date Hc Hr). cbn [final events].
        rewrite <- Hc in Ho. apply Hkeep, delivery_postsTo, Ho. rewrite Hc. eauto.
      * rewrite (sendData_queued env s c d o date Hc Hr). cbn [final events fst snd].
        split; [constructor|]. split; cbn [kit listeners]; simpl; [congruence|].
        intros _. apply Ho. eauto.
    + rewrite (sendData_before_init env s d o date Hc). apply Hkeep. constructor.
  - unfold sendMessage. destruct (_config s) as [c|] eqn:Hc.
    + destruct (_isReady s) eqn:Hr.
      * rewrite (sendData_direct env s c _ _ date Hc Hr). cbn [final events].
        rewrite <- Hc in Ho. apply Hkeep, delivery_postsTo, Ho. rewrite Hc. eauto.
      * rewrite (sendData_queued env s c _ _ date Hc Hr). cbn [final events fst snd].
        split; [constructor|]. split; cbn [kit listeners]; simpl; [congruence|].
        intros _. apply Ho. eauto.
    + rewrite (sendData_before_init env s _ _ date Hc). apply Hkeep. constructor.
  - split.
    + apply notPost_postsTo. cbn [snd]. generalize s.
      change (emits notPost (onCommand env command handler)).
      unfold onCommand. apply emits_bind; [apply emits_this|].
      intros s0. destruct (registrySet env _ _ _); auto with emits.
    + destruct (onCommand_final env command handler s) as [r ->]. split; assumption.
  - destruct (_config s) as [c|] eqn:Hc.
    + rewrite (resize_spec env s c height Hc). cbn [final events].
      rewrite <- Hc in Ho. apply Hkeep, delivery_postsTo, Ho. rewrite Hc. eauto.
    + rewrite (resize_before_init env s height Hc). apply Hkeep. constructor.
  - unfold autoResize. destruct (_config s) as [c|] eqn:Hc.
    + rewrite (resize_spec env s c _ Hc). cbn [final events].
      rewrite <- Hc in Ho. apply Hkeep, delivery_postsTo, Ho. rewrite Hc. eauto.
    + rewrite (resize_before_init env s _ Hc). apply Hkeep. constructor.
  - destruct (_config s) as [c|] eqn:Hc.
    + rewrite (close_spec env s c Hc). cbn [final events].
      rewrite <- Hc in Ho. apply Hkeep, delivery_postsTo, Ho. rewrite Hc. eauto.
    + rewrite (close_before_init env s Hc). apply Hkeep. constructor.
  - destruct (_config s) as [c|] eqn:Hc.
    + destruct (dispatch_postsTo n event s c Hc (Ho (ex_intro _ c eq_refl)))
        as (He & Hc' & Ho').
      destruct (dispatch env n event s) as [s' evs]. cbn [fst snd] in *.
      split; [exact He|]. split; cbn [kit listeners]; [congruence|intros _; exact Ho'].
    + assert (n = 0%nat) as -> by (apply Hn; reflexivity).
      simpl. apply Hkeep. constructor.
Qed.

Lemma run_addressed (calls : list Call) : ∀ p : Page,
  Addressed env p →
  Forall (postsTo (resolvedOrigin env)) (snd (run env calls p)).
Proof.
  induction calls as [|call calls IH]; intros p Hp; simpl; [constructor|].
  destruct (perform_addressed call p Hp) as [He Hp'].
  destruct (perform env call p) as [p' evs]. specialize (IH p' Hp').
  destruct (run env calls p') as [p'' evs']. simpl in *.
  apply Forall_app. split; assumption.
Qed.

End Origin.

Lemma posted_postsTo (o : string) (evs : list Event) :
  Forall (postsTo o) evs → Forall (fun mo => snd mo = Some o) (posted evs).
Proof.
  induction 1 as [|e evs He _ IH]; [constructor|].
  destruct e; simpl in *; try exact IH. constructor; assumption.
Qed.

(** X1: whatever the application calls and the window delivers after
    the page has loaded, every message handed to [postMessage] is
    addressed to the origin [_detectParentOrigin] resolved: the origin of
    the referrer, or the wildcard when the document has no referrer.
    No post is made with the origin still unset. *)
Theorem every_post_goes_to_the_resolved_origin (env : Env) (calls : list Call) :
  Forall (fun mo => snd mo = Some (resolvedOrigin env))
         (posted (snd (run env calls load))).
Proof.
  destruct (embedded env) eqn:He.
  - apply posted_postsTo, run_addressed; [exact He|].
    split; [reflexivity|]. intros [c Hc]. discriminate.
  - rewrite posted_notPost; [constructor|]. apply silent_run. exact He.
Qed.

(** ** [sendMessage] and [autoResize] *)

Lemma sendData_produced (env : Env) (s : ChatKit) (c : Config) (d o : JsValue) (date : Z) :
  _config s = Some c →
  produced s (sendData env d o date s) =
    (if _isReady s && negb (embedded env) then [] else [embed_data env c d o date]).
Proof.
  intros Hc. unfold produced. destruct (_isReady s) eqn:Hr.
  - rewrite (sendData_direct env s c d o date Hc Hr). cbn [final events].
    rewrite drop_all, app_nil_r, posted_delivery. destruct (embedded env); reflexivity.
  - rewrite (sendData_queued env s c d o date Hc Hr). cbn [final events].
    simpl. rewrite drop_app_length. reflexivity.
Qed.

(** X4: on an initialised session [sendMessage] queues (before the
    handshake) or sends (after it) exactly one [embed_data] message, as
    [sendData] does.  The message's data is an object of type [message]
    with the text as content; its [messageType] is the kind given, or
    [info] when the kind is missing or falsy (the empty string included);
    its options are the empty object. *)
Theorem sendMessage_wraps_the_text
    (env : Env) (s : ChatKit) (c : Config) (text type : JsValue) (date : Z) :
  _config s = Some c →
  ∃ m, produced s (sendMessage env text type date s) =
         (if _isReady s && negb (embedded env) then [] else [m])
     ∧ getProp m "type" = JStr "embed_data"
     ∧ getProp m "pageId" = pageId c
     ∧ getProp m "options" = JObj []
     ∧ getProp (getProp m "data") "type" = JStr "message"
     ∧ getProp (getProp m "data") "content" = text
     ∧ getProp (getProp m "data") "messageType" =
         (if truthy type then type else JStr "info").
Proof.
  intros Hc.
  exists (embed_data env c (messagePayload text type) JUndefined date).
  split; [|repeat split].
  unfold sendMessage. apply (sendData_produced env s c _ _ date Hc).
Qed.

(** X4 on the sample page, before the handshake: no kind, and an empty
    kind. *)
Lemma sendMessage_wraps_the_text_witness :
  map (fun m => getProp (getProp m "data") "messageType")
      (_messageQueue (final (sendMessage sampleEnv (JStr "done") JUndefined 300 (kit started))))
  = [JStr "info"]
  ∧ ∃ m, produced (kit started) (sendMessage sampleEnv (JStr "done") (JStr "") 300 (kit started))
         = [m]
       ∧ getProp (getProp m "data") "messageType" = JStr "info".
Proof.
  split; [reflexivity|].
  destruct (sendMessage_wraps_the_text sampleEnv (kit started) sampleConfig
              (JStr "done") (JStr "") 300 eq_refl) as (m & Hm & _ & _ & _ & _ & _ & Hk).
  exists m. split; [exact Hm|exact Hk].
Defined.

(** X5: on an initialised session in an embedded page [autoResize]
    posts one [embed_resize] message whose height is the larger of the
    two scroll heights, so it is below neither and the order of the two
    readings does not matter; the session is left as it was. *)
Theorem autoResize_posts_the_larger_height
    (env : Env) (s : ChatKit) (c : Config) (bodyHeight rootHeight : Z) :
  embedded env = true →
  _config s = Some c →
  let h := Z.max bodyHeight rootHeight in
  posted (events (autoResize env bodyHeight rootHeight s))
    = [(embed_resize c (JNum h), _parentOrigin s)]
  ∧ bodyHeight ≤ h ∧ rootHeight ≤ h ∧ (h = bodyHeight ∨ h = rootHeight)
  ∧ final (autoResize env bodyHeight rootHeight s) = s
  ∧ autoResize env rootHeight bodyHeight s = autoResize env bodyHeight rootHeight s.
Proof.
  intros He Hc h. subst h. unfold autoResize.
  rewrite (resize_spec env s c _ Hc). cbn [events final].
  rewrite posted_delivery, He.
  split; [reflexivity|]. split; [lia|]. split; [lia|]. split; [lia|].
  split; [reflexivity|]. rewrite Z.max_comm. apply (resize_spec env s c _ Hc).
Qed.

(** X5 on the sample page. *)
Lemma autoResize_posts_the_larger_height_witness :
  posted (events (autoResize sampleEnv 480 512 (kit started)))
  = [(embed_resize sampleConfig (JNum 512), Some hostOrigin)].
Proof.
  destruct (autoResize_posts_the_larger_height sampleEnv (kit started) sampleConfig
              480 512 eq_refl eq_refl) as (Hp & _).
  exact Hp.
Defined.

(** ** The configuration [init] installs *)

Lemma init_config (env : Env) (cfg : option Config) (now date : Z) (s : ChatKit) :
  _config (final (init env cfg now date s)) =
    Some {| pageId := match cfg with
                      | Some c0 => if truthy (pageId c0) then pageId c0
                                   else JStr ("embed-" +:+ pretty now)
                      | None => JStr ("embed-" +:+ pretty now)
                      end;
            onReady := cfg ≫= onReady;
            onError := cfg ≫= onError |}.
Proof.
  unfold init. rewrite bind_assign.
  erewrite bind_normal; [|apply config_some; reflexivity]. cbv beta.
  rewrite bind_assign. unfold _detectParentOrigin.
  destruct (embedded env) eqn:He; cbn [negb].
  - rewrite bind_assign.
    erewrite bind_normal; [|reflexivity]. cbv beta.
    erewrite bind_normal; [|apply config_some; reflexivity]. cbv beta.
    erewrite bind_normal; [|eapply sendToParent_spec; reflexivity].
    destruct cfg as [c0|]; reflexivity.
  - erewrite bind_normal; [|reflexivity]. cbv beta.
    erewrite bind_normal; [|reflexivity]. cbv beta.
    erewrite bind_normal; [|apply config_some; reflexivity]. cbv beta.
    erewrite bind_normal; [|eapply sendToParent_spec; reflexivity].
    destruct cfg as [c0|]; reflexivity.
Qed.

(** X6: after [init] the session has a page id that is truthy, so
    never empty.  A truthy id given in the configuration is kept, and the
    two callbacks are taken over as given.  Without one the id is
    [embed-] followed by the reading of the clock, so two initialisations
    without an id get the same id exactly when the clock read the same
    millisecond. *)
Theorem init_installs_a_page_id
    (env : Env) (cfg : option Config) (now date : Z) (s : ChatKit) :
  (∃ c, _config (final (init env cfg now date s)) = Some c
      ∧ truthy (pageId c) = true
      ∧ onReady c = cfg ≫= onReady
      ∧ onError c = cfg ≫= onError
      ∧ match cfg with
        | Some c0 => if truthy (pageId c0) then pageId c = pageId c0
                     else pageId c = JStr ("embed-" +:+ pretty now)
        | None => pageId c = JStr ("embed-" +:+ pretty now)
        end)
  ∧ (∀ (now' date' : Z) (s' : ChatKit),
       _config (final (init env None now date s))
       = _config (final (init env None now' date' s'))
       ↔ now = now').
Proof.
  split.
  - rewrite init_config. eexists. split; [reflexivity|]. cbn [pageId onReady onError].
    split; [|split; [reflexivity|split; [reflexivity|]]].
    + destruct cfg as [c0|]; [destruct (truthy (pageId c0)) eqn:Ht|]; try exact Ht; reflexivity.
    + destruct cfg as [c0|]; [destruct (truthy (pageId c0))|]; reflexivity.
  - intros now' date' s'. rewrite !init_config. split.
    + intros [= H]. apply (inj pretty). exact H.
    + intros ->. reflexivity.
Qed.

(** X6 on the sample page: no id given, twice within one millisecond. *)
Lemma init_installs_a_page_id_witness :
  _config (final (init sampleEnv None 100 101 initial))
  = _config (final (init sampleEnv None 100 555 (kit started)))
  ∧ (_config (final (init sampleEnv None 100 101 initial)) ≫= fun c => Some (pageId c))
    = Some (JStr "embed-100").
Proof.
  split; [|reflexivity].
  apply (proj2 (init_installs_a_page_id sampleEnv None 100 101 initial) 100 555 (kit started)).
  reflexivity.
Defined.

(** ** Listeners and handlers *)

Section Listeners.

Variable env : Env.





End Listeners.



(** ** A registered handler stays *)

Section Registry.

Variable env : Env.
Variable k : string.
Variable h : Handler.





End Registry.



(** ** Data and the handshake *)

Lemma isData_embed_data (env : Env) (c : Config) (d o : JsValue) (date : Z) :
  isData (embed_data env c d o date) = true.
Proof. reflexivity. Qed.

Lemma dataPosted_app (xs ys : list Event) :
  dataPosted (xs ++ ys) = dataPosted xs ++ dataPosted ys.
Proof. unfold dataPosted. rewrite posted_app, map_app, List.filter_app. reflexivity. Qed.

Lemma dataPosted_noData (evs : list Event) : Forall noData evs → dataPosted evs = [].
Proof.
  induction 1 as [|e evs He _ IH]; [reflexivity|].
  destruct e; simpl in *; try exact IH.
  unfold dataPosted in *. simpl. rewrite He. exact IH.
Qed.

Lemma notPost_noData (evs : list Event) : Forall notPost evs → Forall noData evs.
Proof.
  intros H. eapply Forall_impl; [exact H|].
  intros [] Hp; simpl in *; try exact I. contradiction.
Qed.

Lemma silent_onCommand (env : Env) (command : JsValue) (handler : Handler) :
  emits notPost (onCommand env command handler).
Proof.
  unfold onCommand. apply emits_bind; [apply emits_this|].
  intros s0. destruct (registrySet env _ _ _); auto with emits.
Qed.

Section BeforeHandshake.

Variable env : Env.

Lemma delivery_noData (s : ChatKit) (m : JsValue) :
  isData m = false → Forall noData (delivery env s m).
Proof.
  intros Hm. unfold delivery, reportError. destruct (embedded env); [|constructor].
  constructor; [exact Hm|].
  destruct (postMessage env m (_parentOrigin s)); [|constructor].
  constructor; [exact I|].
  destruct (_config s) as [[? ? [?|]]|]; repeat constructor.
Qed.

Lemma handleMessage_waiting (event : MessageEvent) (s : ChatKit) :
  isHandshake (Message event) = false →
  Forall noData (events (_handleMessage env event s))
  ∧ final (_handleMessage env event s) = s.
Proof.
  intros Hh. destruct (classify event) as [[Ho Ht]|[Hm|Hi]].
  - simpl in Hh. rewrite Ho, Ht in Hh. discriminate.
  - rewrite (handleMessage_command env event s Hm), invoke_final.
    split; [|reflexivity]. apply notPost_noData, silent_invoke.
  - rewrite (handleMessage_ignored env event s Hi). split; [constructor|reflexivity].
Qed.

Lemma perform_waiting (call : Call) (p : Page) :
  _isReady (kit p) = false →
  isHandshake call = false →
  Forall noData (snd (perform env call p))
  ∧ _isReady (kit (fst (perform env call p))) = false.
Proof.
  intros Hr Hcall. destruct p as [s n]. cbn [kit] in Hr.
  destruct call as [cfg now date|d o date|text type date|command handler|height|b r| |event];
    unfold perform, method; cbn [kit listeners fst snd].
  - destruct (init_spec env cfg now date s) as (c & s' & E & _ & _ & Hr' & _).
    rewrite E. cbn [final events]. split; [|congruence].
    apply Forall_app. split; [destruct (embedded env); repeat constructor|].
    constructor; [exact I|]. apply delivery_noData. reflexivity.
  - destruct (_config s) as [c|] eqn:Hc.
    + rewrite (sendData_queued env s c d o date Hc Hr). split; [constructor|exact Hr].
    + rewrite (sendData_before_init env s d o date Hc). split; [constructor|exact Hr].
  - unfold sendMessage. destruct (_config s) as [c|] eqn:Hc.
    + rewrite (sendData_queued env s c _ _ date Hc Hr). split; [constructor|exact Hr].
    + rewrite (sendData_before_init env s _ _ date Hc). split; [constructor|exact Hr].
  - split; [apply notPost_noData, silent_onCommand|].
    destruct (onCommand_final env command handler s) as [r ->]. exact Hr.
  - rewrite resize_final. split; [|exact Hr]. destruct (_config s) as [c|] eqn:Hc.
    + rewrite (resize_spec env s c height Hc). apply delivery_noData. reflexivity.
    + rewrite (resize_before_init env s height Hc). constructor.
  - unfold autoResize. rewrite resize_final. split; [|exact Hr].
    destruct (_config s) as [c|] eqn:Hc.
    + rewrite (resize_spec env s c _ Hc). apply delivery_noData. reflexivity.
    + rewrite (resize_before_init env s _ Hc). constructor.
  - rewrite close_final. split; [|exact Hr]. destruct (_config s) as [c|] eqn:Hc.
    + rewrite (close_spec env s c Hc). apply delivery_noData. reflexivity.
    + rewrite (close_before_init env s Hc). constructor.
  - assert (Hd : dispatch env n event s = (s, snd (dispatch env n event s))
                 ∧ Forall noData (snd (dispatch env n event s))).
    { induction n as [|n [IH1 IH2]]; simpl; [split; [reflexivity|constructor]|].
      destruct (handleMessage_waiting event s Hcall) as [He ->].
      rewrite IH1. simpl. split; [reflexivity|]. apply Forall_app. split; assumption. }
    destruct Hd as [-> Hd]. split; [exact Hd|exact Hr].
Qed.

Lemma run_waiting (calls : list Call) : ∀ p : Page,
  _isReady (kit p) = false →
  forallb (fun c => negb (isHandshake c)) calls = true →
  Forall noData (snd (run env calls p))
  ∧ _isReady (kit (fst (run env calls p))) = false.
Proof.
  induction calls as [|call calls IH]; intros p Hr Hcalls; simpl.
  - split; [constructor|exact Hr].
  - simpl in Hcalls. apply andb_prop in Hcalls as [Hcall Hcalls].
    apply negb_true_iff in Hcall.
    destruct (perform_waiting call p Hr Hcall) as [He Hr'].
    destruct (perform env call p) as [p' evs]. cbn [fst snd] in *.
    destruct (IH p' Hr' Hcalls) as [He' Hr''].
    destruct (run env calls p') as [p'' evs']. cbn [fst snd] in *.
    split; [apply Forall_app; split; assumption|exact Hr''].
Qed.

End BeforeHandshake.

(** X9: only a [parent_ready] message completes the handshake.  On a
    session that is not ready, as long as no such message arrives, no
    call of the application and no other inbound message raises the
    ready flag, and no [embed_data] message is handed to [postMessage]:
    what [sendData] and [sendMessage] are given stays in the page. *)
Theorem no_data_leaves_before_the_handshake
    (env : Env) (calls : list Call) (p : Page) :
  _isReady (kit p) = false →
  forallb (fun c => negb (isHandshake c)) calls = true →
  _isReady (kit (fst (run env calls p))) = false
  ∧ dataPosted (snd (run env calls p)) = [].
Proof.
  intros Hr Hcalls. destruct (run_waiting env calls p Hr Hcalls) as [He Hr'].
  split; [exact Hr'|]. apply dataPosted_noData. exact He.
Qed.

(** X9 on the sample page: data, a command, a malformed handshake and
    a resize, with no [parent_ready]. *)
Lemma no_data_leaves_before_the_handshake_witness :
  let calls := [Init (Some sampleConfig) 100 101;
                SendData (JNum 7) JUndefined 300;
                SendMessage (JStr "done") JUndefined 301;
                Message (parent_command "reset" JNull);
                Message {| data := JStr "parent_ready"; origin := hostOrigin |};
                Resize (JNum 480)] in
  _isReady (kit (fst (run sampleEnv calls load))) = false
  ∧ dataPosted (snd (run sampleEnv calls load)) = []
  ∧ length (_messageQueue (kit (fst (run sampleEnv calls load)))) = 2%nat.
Proof.
  cbv zeta.
  destruct (no_data_leaves_before_the_handshake sampleEnv
              [Init (Some sampleConfig) 100 101;
               SendData (JNum 7) JUndefined 300;
               SendMessage (JStr "done") JUndefined 301;
               Message (parent_command "reset" JNull);
               Message {| data := JStr "parent_ready"; origin := hostOrigin |};
               Resize (JNum 480)] load eq_refl eq_refl) as [Hr Hd].
  split; [exact Hr|]. split; [exact Hd|reflexivity].
Defined.

(** ** Nothing is lost or sent twice *)

Lemma init_installed (env : Env) (cfg : option Config) (now date : Z) (s : ChatKit) :
  _config (final (init env cfg now date s)) = Some (installed cfg now).
Proof. apply init_config. Qed.

Section Balance.

Variable env : Env.
Hypothesis framed : embedded env = true.

(** The [embed_data] messages a page still holds. *)
Let held (s : ChatKit) : list JsValue := List.filter isData (_messageQueue s).

Lemma dataPosted_delivery (s : ChatKit) (m : JsValue) :
  dataPosted (delivery env s m) = if isData m then [m] else [].
Proof.
  unfold dataPosted. rewrite posted_delivery, framed. reflexivity.
Qed.

Lemma dataPosted_deliveries (s : ChatKit) (q : list JsValue) :
  dataPosted (concat (map (delivery env s) q)) = List.filter isData q.
Proof.
  induction q as [|m q IH]; simpl; [reflexivity|].
  rewrite dataPosted_app, IH, dataPosted_delivery. destruct (isData m); reflexivity.
Qed.

Lemma dataPosted_readyCall (c : Config) : dataPosted (readyCall c) = [].
Proof. unfold readyCall. destruct (onReady c); reflexivity. Qed.

Lemma handleMessage_balance (event : MessageEvent) (s : ChatKit) (c : Config) :
  _config s = Some c →
  _config (final (_handleMessage env event s)) = Some c
  ∧ dataPosted (events (_handleMessage env event s))
    ++ held (final (_handleMessage env event s)) ≡ₚ held s.
Proof.
  intros Hc. unfold held. destruct (classify event) as [Hr|[Hm|Hi]].
  - rewrite (handleMessage_ready env event s c Hr Hc). cbn [final events].
    split; [exact Hc|].
    rewrite dataPosted_app, dataPosted_deliveries, dataPosted_readyCall.
    simpl. rewrite !app_nil_r. reflexivity.
  - rewrite (handleMessage_command env event s Hm), invoke_final.
    split; [exact Hc|].
    rewrite (dataPosted_noData _ (notPost_noData _ (silent_invoke _ _ _ s))). reflexivity.
  - rewrite (handleMessage_ignored env event s Hi). split; [exact Hc|reflexivity].
Qed.

Lemma dispatch_balance (n : nat) (event : MessageEvent) : ∀ (s : ChatKit) (c : Config),
  _config s = Some c →
  _config (fst (dispatch env n event s)) = Some c
  ∧ dataPosted (snd (dispatch env n event s)) ++ held (fst (dispatch env n event s))
    ≡ₚ held s.
Proof.
  induction n as [|n IH]; intros s c Hc; simpl; [split; [exact Hc|reflexivity]|].
  destruct (handleMessage_balance event s c Hc) as [Hc' Hb].
  destruct (IH _ c Hc') as [Hc'' Hb'].
  destruct (dispatch env n event (final (_handleMessage env event s))) as [s' evs].
  cbn [fst snd] in *. split; [exact Hc''|].
  rewrite dataPosted_app, <- app_assoc, Hb'. exact Hb.
Qed.

Lemma sendData_balance (s : ChatKit) (c : Config) (d o : JsValue) (date : Z) :
  _config s = Some c →
  _config (final (sendData env d o date s)) = Some c
  ∧ dataPosted (events (sendData env d o date s)) ++ held (final (sendData env d o date s))
    ≡ₚ held s ++ [embed_data env c d o date].
Proof.
  intros Hc. unfold held. destruct (_isReady s) eqn:Hr.
  - rewrite (sendData_direct env s c d o date Hc Hr). cbn [final events].
    split; [exact Hc|]. rewrite dataPosted_delivery, isData_embed_data.
    apply Permutation_app_comm.
  - rewrite (sendData_queued env s c d o date Hc Hr). cbn [final events].
    split; [exact Hc|]. simpl. rewrite List.filter_app. reflexivity.
Qed.

Lemma perform_balance (call : Call) (p : Page) (c : Config) :
  _config (kit p) = Some c →
  _config (kit (fst (perform env call p))) =
    Some (match call with Init cfg now _ => installed cfg now | _ => c end)
  ∧ dataPosted (snd (perform env call p)) ++ held (kit (fst (perform env call p)))
    ≡ₚ held (kit p) ++ match call with Init _ _ _ => [] | _ => queuedBy env c call end.
Proof.
  intros Hc. destruct p as [s n]. cbn [kit] in Hc.
  destruct call as [cfg now date|d o date|text type date|command handler|height|b r| |event];
    unfold perform, method; cbn [kit listeners fst snd queuedBy].
  - split; [apply init_installed|].
    destruct (init_spec env cfg now date s) as (c' & s' & E & Hc' & Hq & _).
    rewrite E. cbn [final events]. unfold held. rewrite Hq.
    rewrite dataPosted_app. change (AddEventListener :: ?l) with ([AddEventListener] ++ l).
    rewrite dataPosted_app, dataPosted_delivery, framed. simpl.
    rewrite app_nil_r. reflexivity.
  - apply sendData_balance. exact Hc.
  - unfold sendMessage. apply sendData_balance. exact Hc.
  - rewrite (dataPosted_noData _ (notPost_noData _ (silent_onCommand env command handler s))).
    destruct (onCommand_final env command handler s) as [r ->].
    split; [exact Hc|]. unfold held. simpl. rewrite app_nil_r. reflexivity.
  - rewrite (resize_spec env s c height Hc). cbn [final events].
    split; [exact Hc|]. rewrite dataPosted_delivery. simpl. rewrite app_nil_r. reflexivity.
  - unfold autoResize. rewrite (resize_spec env s c _ Hc). cbn [final events].
    split; [exact Hc|]. rewrite dataPosted_delivery. simpl. rewrite app_nil_r. reflexivity.
  - rewrite (close_spec env s c Hc). cbn [final events].
    split; [exact Hc|]. rewrite dataPosted_delivery. simpl. rewrite app_nil_r. reflexivity.
  - destruct (dispatch_balance n event s c Hc) as [Hc' Hb].
    destruct (dispatch env n event s) as [s' evs]. cbn [fst snd kit] in *.
    split; [exact Hc'|]. rewrite app_nil_r. exact Hb.
Qed.

Lemma run_balance (calls : list Call) : ∀ (p : Page) (c : Config),
  _config (kit p) = Some c →
  dataPosted (snd (run env calls p)) ++ held (kit (fst (run env calls p)))
  ≡ₚ held (kit p) ++ dataOf env c calls.
Proof.
  induction calls as [|call calls IH]; intros p c Hc.
  - simpl. rewrite app_nil_r. reflexivity.
  - cbn [run]. destruct (perform_balance call p c Hc) as [Hc' Hb].
    destruct (perform env call p) as [p' evs]. cbn [fst snd] in *.
    specialize (IH p' _ Hc').
    destruct (run env calls p') as [p'' evs']. cbn [fst snd] in *.
    rewrite dataPosted_app, <- app_assoc, IH, app_assoc, Hb, <- app_assoc.
    destruct call; reflexivity.
Qed.

End Balance.

(** X10: in an embedded page, on an initialised session, no
    [embed_data] message is lost, invented or sent twice.  Over any
    sequence of calls and inbound messages, the [embed_data] messages
    handed to [postMessage] together with those still in the queue at the
    end are, up to order, exactly those in the queue at the start and the
    one message each [sendData] and [sendMessage] call of the sequence
    builds: every such message is in the one list as often as in the
    other. *)
Theorem data_is_queued_or_posted_exactly_once
    (env : Env) (calls : list Call) (p : Page) (c : Config) :
  embedded env = true →
  _config (kit p) = Some c →
  dataPosted (snd (run env calls p))
  ++ List.filter isData (_messageQueue (kit (fst (run env calls p))))
  ≡ₚ List.filter isData (_messageQueue (kit p)) ++ dataOf env c calls.
Proof. intros He Hc. apply (run_balance env He calls p c Hc). Qed.

(** X10 on the sample page: two sends before the handshake, one after,
    and a last one after a second handshake message. *)
Lemma data_is_queued_or_posted_exactly_once_witness :
  let calls := [SendData (JNum 1) JUndefined 300;
                SendMessage (JStr "two") JUndefined 301;
                Resize (JNum 480);
                Message (parent_ready hostOrigin);
                SendData (JNum 3) JUndefined 302;
                Message (parent_ready hostOrigin);
                SendData (JNum 4) JUndefined 303] in
  dataPosted (snd (run sampleEnv calls started)) ++ []
  ≡ₚ [] ++ [embed_data sampleEnv sampleConfig (JNum 1) JUndefined 300;
            embed_data sampleEnv sampleConfig (messagePayload (JStr "two") JUndefined)
                       JUndefined 301;
            embed_data sampleEnv sampleConfig (JNum 3) JUndefined 302;
            embed_data sampleEnv sampleConfig (JNum 4) JUndefined 303].
Proof.
  exact (data_is_queued_or_posted_exactly_once sampleEnv
           [SendData (JNum 1) JUndefined 300;
            SendMessage (JStr "two") JUndefined 301;
            Resize (JNum 480);
            Message (parent_ready hostOrigin);
            SendData (JNum 3) JUndefined 302;
            Message (parent_ready hostOrigin);
            SendData (JNum 4) JUndefined 303]
           started sampleConfig eq_refl eq_refl).
Defined.

(** ** The drain when a callback throws *)

Lemma bind_ext {A B : Type} (m1 m2 : M A) (k1 k2 : A → M B) (s : ChatKit) :
  m1 s = m2 s → (∀ a s', k1 a s' = k2 a s') → (m1 ≫= k1) s = (m2 ≫= k2) s.
Proof.
  intros Hm Hk. unfold mbind, M_bind. rewrite Hm.
  destruct (completion (m2 s)); [rewrite Hk|]; reflexivity.
Qed.

(** For an application whose functions return, the drain and the
    dispatcher are those of the main embedding. *)
Lemma returning_flush (env : Env) (fuel : nat) : ∀ s : ChatKit,
  Raising.flush returning env fuel s = flush env fuel s.
Proof.
  induction fuel as [|fuel IH]; intros s; simpl; [reflexivity|].
  apply bind_ext; [reflexivity|]. intros s0 s'.
  destruct (_messageQueue s0); [reflexivity|].
  apply bind_ext; [reflexivity|]. intros _ s1.
  apply bind_ext; [apply returning_sendToParent|]. intros _ s2. apply IH.
Qed.

Lemma returning_handleMessage (env : Env) (event : MessageEvent) (s : ChatKit) :
  Raising._handleMessage returning env event s = _handleMessage env event s.
Proof.
  unfold Raising._handleMessage, _handleMessage.
  destruct (negb (truthy (data event)) || _); [reflexivity|].
  apply bind_ext.
  - destruct (strictEqStr (getProp (data event) "type") "parent_ready"); [|reflexivity].
    apply bind_ext; [reflexivity|]. intros _ s1.
    apply bind_ext; [reflexivity|]. intros s2 s3.
    apply bind_ext; [apply returning_flush|]. intros _ s4.
    apply bind_ext; [reflexivity|]. intros c s5.
    destruct (onReady c); reflexivity.
  - intros _ s1.
    destruct (strictEqStr (getProp (data event) "type") "parent_command"); [|reflexivity].
    apply bind_ext; [reflexivity|]. intros s2 s3.
    destruct (registryGet env (_commandHandlers s2) _); reflexivity.
Qed.

Section RaisingDrain.

Variable app : App.
Variable env : Env.

Lemma raising_flush_all (fuel : nat) : ∀ (s : ChatKit) (c : Config),
  _config s = Some c →
  (length (_messageQueue s) ≤ fuel)%nat →
  Forall (fun m => sendThrows app env s m = None) (_messageQueue s) →
  Raising.flush app env fuel s =
    {| completion := Normal tt;
       final := set_messageQueue [] s;
       events := concat (map (delivery env s) (_messageQueue s)) |}.
Proof.
  induction fuel as [|fuel IH]; intros s c Hc Hlen Hall.
  - destruct (_messageQueue s) eqn:Hq; simpl in Hlen; [|lia].
    simpl. rewrite <- Hq, set_messageQueue_id. reflexivity.
  - simpl. rewrite bind_this.
    destruct (_messageQueue s) as [|m rest] eqn:Hq.
    + simpl. rewrite <- Hq, set_messageQueue_id. reflexivity.
    + simpl in Hlen. apply Forall_cons in Hall as [Hm Hrest].
      rewrite bind_assign.
      erewrite bind_normal;
        [|rewrite (raising_sendToParent_spec app env (set_messageQueue rest s) c m Hc);
          change (sendThrows app env (set_messageQueue rest s) m)
            with (sendThrows app env s m); rewrite Hm; reflexivity].
      rewrite (IH (set_messageQueue rest s) c Hc); [|simpl; lia|exact Hrest].
      reflexivity.
Qed.

Lemma raising_flush_stops (pre : list JsValue) : ∀ (fuel : nat) (s : ChatKit) (c : Config)
    (m : JsValue) (rest : list JsValue) (thrown : JsError),
  _config s = Some c →
  _messageQueue s = pre ++ m :: rest →
  (length (_messageQueue s) ≤ fuel)%nat →
  Forall (fun x => sendThrows app env s x = None) pre →
  sendThrows app env s m = Some thrown →
  Raising.flush app env fuel s =
    {| completion := Throw thrown;
       final := set_messageQueue rest s;
       events := concat (map (delivery env s) (pre ++ [m])) |}.
Proof.
  induction pre as [|x pre IH]; intros fuel s c m rest thrown Hc Hq Hlen Hpre Hm;
    (destruct fuel as [|fuel]; [rewrite Hq in Hlen; simpl in Hlen; lia|]);
    simpl; rewrite bind_this, Hq; simpl; rewrite bind_assign.
  - erewrite bind_throw;
      [|rewrite (raising_sendToParent_spec app env (set_messageQueue rest s) c m Hc);
        change (sendThrows app env (set_messageQueue rest s) m)
          with (sendThrows app env s m); rewrite Hm; reflexivity].
    simpl. rewrite app_nil_r. reflexivity.
  - apply Forall_cons in Hpre as [Hx Hpre].
    erewrite bind_normal;
      [|rewrite (raising_sendToParent_spec app env
                  (set_messageQueue (pre ++ m :: rest) s) c x Hc);
        change (sendThrows app env (set_messageQueue (pre ++ m :: rest) s) x)
          with (sendThrows app env s x); rewrite Hx; reflexivity].
    rewrite (IH fuel (set_messageQueue (pre ++ m :: rest) s) c m rest thrown Hc);
      [reflexivity|reflexivity| |exact Hpre|exact Hm].
    rewrite Hq in Hlen. simpl in *. lia.
Qed.

End RaisingDrain.

Section RaisingHandshake.

Variable app : App.
Variable env : Env.

(** What the handshake branch of the dispatcher does, up to the call of
    [onReady], when no send of the drain throws. *)
Lemma raising_handshake_all (event : MessageEvent) (s : ChatKit) (c : Config) :
  hasType event "parent_ready" →
  _config s = Some c →
  Forall (fun m => sendThrows app env s m = None) (_messageQueue s) →
  Raising._handleMessage app env event s =
    {| completion := match onReady c with
                     | Some f =>
                         match onReadyThrows app f with
                         | Some thrown => Throw thrown
                         | None => Normal tt
                         end
                     | None => Normal tt
                     end;
       final := set_messageQueue [] (set_isReady true s);
       events := concat (map (delivery env s) (_messageQueue s)) ++ readyCall c |}.
Proof.
  intros Ht Hc Hall. unfold Raising._handleMessage.
  rewrite (hasType_object _ _ Ht). destruct Ht as [_ Ht]. rewrite Ht. simpl.
  assert (Hin :
    (assign (set_isReady true) ≫= λ _ : (), this ≫= λ s0 : ChatKit,
       Raising.flush app env (length (_messageQueue s0)) ≫= λ _ : (),
         config ≫= λ c0 : Config,
           match onReady c0 with
           | Some f => callOut (CallOnReady f) (onReadyThrows app f)
           | None => mret ()
           end) s =
    {| completion := match onReady c with
                     | Some f =>
                         match onReadyThrows app f with
                         | Some thrown => Throw thrown
                         | None => Normal tt
                         end
                     | None => Normal tt
                     end;
       final := set_messageQueue [] (set_isReady true s);
       events := concat (map (delivery env s) (_messageQueue s)) ++ readyCall c |}).
  { rewrite bind_assign, bind_this.
    erewrite bind_normal;
      [|apply (raising_flush_all app env _ (set_isReady true s) c);
        [exact Hc|reflexivity|exact Hall]].
    erewrite bind_normal; [|apply config_some; exact Hc].
    unfold readyCall, callOut.
    destruct (onReady c) as [f|]; [destruct (onReadyThrows app f)|]; reflexivity. }
  destruct (onReady c) as [f|]; [destruct (onReadyThrows app f)|].
  - erewrite bind_throw; [|exact Hin]. reflexivity.
  - erewrite bind_normal; [|exact Hin]. simpl. rewrite app_nil_r. reflexivity.
  - erewrite bind_normal; [|exact Hin]. simpl. rewrite app_nil_r. reflexivity.
Qed.

(** The same when the send of one queued message throws. *)
Lemma raising_handshake_stops (event : MessageEvent) (s : ChatKit) (c : Config)
    (pre : list JsValue) (m : JsValue) (rest : list JsValue) (thrown : JsError) :
  hasType event "parent_ready" →
  _config s = Some c →
  _messageQueue s = pre ++ m :: rest →
  Forall (fun x => sendThrows app env s x = None) pre →
  sendThrows app env s m = Some thrown →
  Raising._handleMessage app env event s =
    {| completion := Throw thrown;
       final := set_messageQueue rest (set_isReady true s);
       events := concat (map (delivery env s) (pre ++ [m])) |}.
Proof.
  intros Ht Hc Hq Hpre Hm. unfold Raising._handleMessage.
  rewrite (hasType_object _ _ Ht). destruct Ht as [_ Ht]. rewrite Ht. simpl.
  erewrite bind_throw; [reflexivity|].
  rewrite bind_assign, bind_this.
  erewrite bind_throw; [reflexivity|].
  apply (raising_flush_stops app env pre _ (set_isReady true s) c m rest thrown);
    [exact Hc|exact Hq|reflexivity|exact Hpre|exact Hm].
Qed.

End RaisingHandshake.

Lemma reported_app (xs ys : list Event) :
  reported (xs ++ ys) = reported xs ++ reported ys.
Proof. unfold reported. apply omap_app. Qed.

Lemma reported_deliveries (env : Env) (s : ChatKit) (c : Config) (q : list JsValue) :
  embedded env = true →
  _config s = Some c →
  reported (concat (map (delivery env s) q)) =
    match onError c with
    | Some f => map (fun e => (f, e)) (omap (fun m => postMessage env m (_parentOrigin s)) q)
    | None => []
    end.
Proof.
  intros He Hc. induction q as [|m q IH]; simpl.
  - destruct (onError c); reflexivity.
  - rewrite reported_app, IH. unfold delivery, reportError. rewrite He, Hc.
    destruct (postMessage env m (_parentOrigin s)) as [e|]; simpl;
      destruct c as [pid rdy [f|]]; reflexivity.
Qed.

(** X11: a post that fails does not by itself stop the drain, a
    throwing [onError] does.  On an initialised session in an embedded
    page, at a [parent_ready]:
    - when no [onError] call of the drain throws (none is configured, or
      each returns), every queued message is handed to [postMessage]
      once, in queue order, whether or not earlier posts threw;
      [onError] is called once for each post that threw, with its error,
      in queue order; the queue ends empty, so a failed message is
      neither kept nor tried again; and the listener returns normally
      unless [onReady] throws;
    - at the first queued message whose post throws and whose [onError]
      call throws, the drain ends: the listener throws that exception,
      the messages up to and including that one have been handed to
      [postMessage] and are gone from the queue, the later ones stay
      queued with the ready flag raised, and [onReady] is not called. *)
Theorem drain_stops_only_when_onError_throws
    (app : App) (env : Env) (event : MessageEvent) (s : ChatKit) (c : Config) :
  embedded env = true →
  _config s = Some c →
  hasType event "parent_ready" →
  let r := Raising._handleMessage app env event s in
  (Forall (fun m => sendThrows app env s m = None) (_messageQueue s) →
     completion r = match onReady c with
                    | Some f =>
                        match onReadyThrows app f with
                        | Some thrown => Throw thrown
                        | None => Normal tt
                        end
                    | None => Normal tt
                    end
     ∧ _isReady (final r) = true
     ∧ _messageQueue (final r) = []
     ∧ posted (events r) = map (fun m => (m, _parentOrigin s)) (_messageQueue s)
     ∧ reported (events r) =
         match onError c with
         | Some f =>
             map (fun e => (f, e))
                 (omap (fun m => postMessage env m (_parentOrigin s)) (_messageQueue s))
         | None => []
         end)
  ∧ (∀ (pre : list JsValue) (m : JsValue) (rest : list JsValue) (thrown : JsError),
       _messageQueue s = pre ++ m :: rest →
       Forall (fun x => sendThrows app env s x = None) pre →
       sendThrows app env s m = Some thrown →
       completion r = Throw thrown
       ∧ _isReady (final r) = true
       ∧ _messageQueue (final r) = rest
       ∧ events r = concat (map (delivery env s) (pre ++ [m]))
       ∧ posted (events r) = map (fun x => (x, _parentOrigin s)) (pre ++ [m])).
Proof.
  intros He Hc Ht r. subst r. split.
  - intros Hall. rewrite (raising_handshake_all app env event s c Ht Hc Hall).
    cbn [completion final events]. repeat split.
    + rewrite posted_app, posted_deliveries, He. unfold readyCall.
      destruct (onReady c); simpl; rewrite app_nil_r; reflexivity.
    + rewrite reported_app, (reported_deliveries env s c _ He Hc). unfold readyCall.
      destruct (onReady c); simpl; rewrite app_nil_r; reflexivity.
  - intros pre m rest thrown Hq Hpre Hm.
    rewrite (raising_handshake_stops app env event s c pre m rest thrown Ht Hc Hq Hpre Hm).
    cbn [completion final events]. repeat split.
    rewrite posted_deliveries, He. reflexivity.
Qed.

(** X11 on a page whose host cannot clone the second of three queued
    messages: with an [onError] that returns, and with one that throws. *)
Lemma drain_stops_only_when_onError_throws_witness :
  let calls := [Init (Some sampleConfig) 100 101;
                SendData (JNum 1) JUndefined 300;
                SendData (JNum 2) JUndefined 301;
                SendData (JNum 3) JUndefined 302] in
  let s := kit (fst (run flakyEnv calls load)) in
  let quiet := Raising._handleMessage returning flakyEnv (parent_ready hostOrigin) s in
  let loud := Raising._handleMessage throwingApp flakyEnv (parent_ready hostOrigin) s in
  (map (fun mo => getProp (fst mo) "data") (posted (events quiet)) = [JNum 1; JNum 2; JNum 3]
   ∧ reported (events quiet) = [(2%nat, DOMException "DataCloneError")]
   ∧ _messageQueue (final quiet) = [])
  ∧ (completion loud = Throw (TypeError "onError failed")
     ∧ map (fun m => getProp m "data") (_messageQueue (final loud)) = [JNum 3]
     ∧ _isReady (final loud) = true).
Proof.
  cbv zeta. split.
  - destruct (proj1 (drain_stops_only_when_onError_throws returning flakyEnv
                       (parent_ready hostOrigin)
                       (kit (fst (run flakyEnv
                                    [Init (Some sampleConfig) 100 101;
                                     SendData (JNum 1) JUndefined 300;
                                     SendData (JNum 2) JUndefined 301;
                                     SendData (JNum 3) JUndefined 302] load)))
                       sampleConfig eq_refl eq_refl (conj eq_refl eq_refl)))
      as (_ & _ & Hq & Hp & Hr).
    + repeat constructor.
    + split; [rewrite Hp; reflexivity|]. split; [rewrite Hr; reflexivity|exact Hq].
  - destruct (proj2 (drain_stops_only_when_onError_throws throwingApp flakyEnv
                       (parent_ready hostOrigin)
                       (kit (fst (run flakyEnv
                                    [Init (Some sampleConfig) 100 101;
                                     SendData (JNum 1) JUndefined 300;
                                     SendData (JNum 2) JUndefined 301;
                                     SendData (JNum 3) JUndefined 302] load)))
                       sampleConfig eq_refl eq_refl (conj eq_refl eq_refl))
                    [embed_data flakyEnv sampleConfig (JNum 1) JUndefined 300]
                    (embed_data flakyEnv sampleConfig (JNum 2) JUndefined 301)
                    [embed_data flakyEnv sampleConfig (JNum 3) JUndefined 302]
                    (TypeError "onError failed") eq_refl)
      as (Hc & Hr & Hq & _).
    + repeat constructor.
    + reflexivity.
    + split; [exact Hc|]. split; [rewrite Hq; reflexivity|exact Hr].
Defined.

(** ** Outside a frame, and before [init] *)

Lemma init_top_level (env : Env) (cfg : option Config) (now date : Z) (s : ChatKit) :
  embedded env = false →
  _parentOrigin (final (init env cfg now date s)) = _parentOrigin s
  ∧ events (init env cfg now date s) =
      [ConsoleWarn "[ChatKit] Not running in iframe" []; AddEventListener].
Proof.
  intros He. unfold init. rewrite bind_assign.
  erewrite bind_normal; [|apply config_some; reflexivity]. cbv beta.
  rewrite bind_assign. unfold _detectParentOrigin. rewrite He. cbn [negb].
  erewrite bind_normal; [|reflexivity]. cbv beta.
  erewrite bind_normal; [|reflexivity]. cbv beta.
  erewrite bind_normal; [|apply config_some; reflexivity]. cbv beta.
  erewrite bind_normal; [|eapply sendToParent_spec; reflexivity].
  cbn [final events this]. unfold delivery. rewrite He. split; reflexivity.
Qed.

(** X12: in a page that is not embedded [init] still returns the
    session: it logs one warning, attaches its listener, leaves the
    parent origin as it was (unset, on a fresh page) and sends nothing. *)
Theorem init_outside_a_frame_only_warns
    (env : Env) (cfg : option Config) (now date : Z) (s : ChatKit) :
  embedded env = false →
  let r := init env cfg now date s in
  completion r = Normal (final r)
  ∧ events r = [ConsoleWarn "[ChatKit] Not running in iframe" []; AddEventListener]
  ∧ _parentOrigin (final r) = _parentOrigin s
  ∧ is_Some (_config (final r)).
Proof.
  intros He r. subst r. destruct (init_top_level env cfg now date s He) as [Ho Hev].
  split; [|split; [exact Hev|split; [exact Ho|]]].
  - destruct (init_spec env cfg now date s) as (c & s' & -> & _). reflexivity.
  - rewrite init_config. eauto.
Qed.

(** X12 on the top-level sample page. *)
Lemma init_outside_a_frame_only_warns_witness :
  events (init topEnv None 100 101 initial)
  = [ConsoleWarn "[ChatKit] Not running in iframe" []; AddEventListener]
  ∧ _parentOrigin (final (init topEnv None 100 101 initial)) = None.
Proof.
  destruct (init_outside_a_frame_only_warns topEnv None 100 101 initial eq_refl)
    as (_ & Hev & Ho & _).
  split; [exact Hev|exact Ho].
Defined.

Section Inert.

Variable env : Env.

Lemma onCommand_events (command : JsValue) (handler : Handler) (s : ChatKit) :
  events (onCommand env command handler s) = [].
Proof.
  unfold onCommand. rewrite bind_this.
  destruct (registrySet env (_commandHandlers s) (toPropertyKey command) handler);
    reflexivity.
Qed.

Lemma perform_inert (call : Call) (p : Page) :
  inits [call] = 0%nat →
  Inert p →
  snd (perform env call p) = [] ∧ Inert (fst (perform env call p)).
Proof.
  intros Hcall (Hc & Hl & Hr & Hq). destruct p as [s n]. cbn [kit listeners] in *.
  destruct call as [cfg now date|d o date|text type date|command handler|height|b r| |event];
    unfold perform, method; cbn [kit listeners fst snd]; try discriminate.
  - rewrite (sendData_before_init env s d o date Hc). repeat split; assumption.
  - unfold sendMessage. rewrite (sendData_before_init env s _ _ date Hc).
    repeat split; assumption.
  - rewrite onCommand_events. split; [reflexivity|].
    destruct (onCommand_final env command handler s) as [r ->]. repeat split; assumption.
  - rewrite (resize_before_init env s height Hc). repeat split; assumption.
  - unfold autoResize. rewrite (resize_before_init env s _ Hc). repeat split; assumption.
  - rewrite (close_before_init env s Hc). repeat split; assumption.
  - subst n. simpl. repeat split; assumption.
Qed.

Lemma run_inert (calls : list Call) : ∀ p : Page,
  inits calls = 0%nat →
  Inert p →
  snd (run env calls p) = [] ∧ Inert (fst (run env calls p)).
Proof.
  induction calls as [|call calls IH]; intros p Hcalls Hp; [split; [reflexivity|exact Hp]|].
  cbn [run].
  assert (inits [call] = 0%nat ∧ inits calls = 0%nat) as [H1 H2]
    by (destruct call; simpl in *; try discriminate; split; (reflexivity || assumption)).
  destruct (perform_inert call p H1 Hp) as [He Hp'].
  destruct (perform env call p) as [p' evs]. cbn [fst snd] in *.
  destruct (IH p' H2 Hp') as [He' Hp''].
  destruct (run env calls p') as [p'' evs']. cbn [fst snd] in *.
  subst. split; [reflexivity|exact Hp''].
Qed.

End Inert.

(** X13: until [init] is called the SDK is inert.  Whatever else the
    application calls and whatever messages arrive after the page has
    loaded, nothing leaves the object (no post, no console output, no
    callback or handler call), the session stays unconfigured and not
    ready with an empty queue and no listener; only the registrations
    made by [onCommand] are recorded. *)
Theorem nothing_happens_before_init (env : Env) (calls : list Call) :
  inits calls = 0%nat →
  let p := fst (run env calls load) in
  snd (run env calls load) = []
  ∧ _config (kit p) = None
  ∧ listeners p = 0%nat
  ∧ _isReady (kit p) = false
  ∧ _messageQueue (kit p) = [].
Proof.
  intros Hcalls p. subst p.
  destruct (run_inert env calls load Hcalls) as [He Hp]; [repeat split|].
  split; [exact He|exact Hp].
Qed.

(** X13 on the sample page: a registration, data, the handshake and a
    command, all before [init]. *)
Lemma nothing_happens_before_init_witness :
  let calls := [OnCommand (JStr "reset") 7%nat;
                SendData (JNum 7) JUndefined 300;
                Message (parent_ready hostOrigin);
                Message (parent_command "reset" (JObj []));
                Close] in
  snd (run sampleEnv calls load) = []
  ∧ own (_commandHandlers (kit (fst (run sampleEnv calls load)))) !! "reset" = Some 7%nat.
Proof.
  cbv zeta. split; [|reflexivity].
  exact (proj1 (nothing_happens_before_init sampleEnv
                  [OnCommand (JStr "reset") 7%nat;
                   SendData (JNum 7) JUndefined 300;
                   Message (parent_ready hostOrigin);
                   Message (parent_command "reset" (JObj []));
                   Close] eq_refl)).
Defined.

(** ** The queue between other calls *)

Section Interleaved.

Variable env : Env.

Lemma perform_queues (call : Call) (p : Page) (c : Config) :
  _config (kit p) = Some c →
  _isReady (kit p) = false →
  isHandshake call = false →
  inits [call] = 0%nat →
  _config (kit (fst (perform env call p))) = Some c
  ∧ _isReady (kit (fst (perform env call p))) = false
  ∧ _messageQueue (kit (fst (perform env call p)))
    = _messageQueue (kit p) ++ queuedBy env c call.
Proof.
  intros Hc Hr Hcall Hinit. destruct p as [s n]. cbn [kit] in *.
  destruct call as [cfg now date|d o date|text type date|command handler|height|b r| |event];
    unfold perform, method; cbn [kit listeners fst snd queuedBy]; try discriminate;
    rewrite ?app_nil_r.
  - rewrite (sendData_queued env s c d o date Hc Hr). repeat split; assumption.
  - unfold sendMessage. rewrite (sendData_queued env s c _ _ date Hc Hr).
    repeat split; assumption.
  - destruct (onCommand_final env command handler s) as [r ->]. repeat split; assumption.
  - rewrite resize_final. repeat split; assumption.
  - unfold autoResize. rewrite resize_final. repeat split; assumption.
  - rewrite close_final. repeat split; assumption.
  - assert (Hd : fst (dispatch env n event s) = s).
    { induction n as [|n IH]; simpl; [reflexivity|].
      destruct (handleMessage_waiting env event s Hcall) as [_ ->].
      destruct (dispatch env n event s). exact IH. }
    destruct (dispatch env n event s) as [s' evs]. cbn [fst kit] in *. subst s'.
    repeat split; assumption.
Qed.

Lemma run_queues (calls : list Call) : ∀ (p : Page) (c : Config),
  _config (kit p) = Some c →
  _isReady (kit p) = false →
  forallb (fun call => negb (isHandshake call)) calls = true →
  inits calls = 0%nat →
  _messageQueue (kit (fst (run env calls p)))
  = _messageQueue (kit p) ++ concat (map (queuedBy env c) calls).
Proof.
  induction calls as [|call calls IH]; intros p c Hc Hr Hcalls Hinits.
  - simpl. rewrite app_nil_r. reflexivity.
  - cbn [run map concat]. simpl in Hcalls. apply andb_prop in Hcalls as [Hcall Hcalls].
    apply negb_true_iff in Hcall.
    assert (inits [call] = 0%nat ∧ inits calls = 0%nat) as [H1 H2]
      by (destruct call; simpl in *; try discriminate; split; (reflexivity || assumption)).
    destruct (perform_queues call p c Hc Hr Hcall H1) as (Hc' & Hr' & Hq).
    destruct (perform env call p) as [p' evs]. cbn [fst] in *.
    specialize (IH p' c Hc' Hr' Hcalls H2).
    destruct (run env calls p') as [p'' evs']. cbn [fst] in *.
    rewrite IH, Hq, app_assoc. reflexivity.
Qed.

End Interleaved.

(** X14: before the handshake the queue records the data calls in call
    order, whatever is called in between.  On an initialised session
    that is not ready, over any sequence of calls and inbound messages
    with no [init] and no [parent_ready], the queue at the end is the
    queue at the start followed by one [embed_data] message for each
    [sendData] and [sendMessage] call, in the order of the calls:
    [resize], [close], [autoResize], [onCommand] and inbound commands or
    malformed messages neither add to it nor reorder it. *)
Theorem queue_keeps_call_order_between_other_calls
    (env : Env) (calls : list Call) (p : Page) (c : Config) :
  _config (kit p) = Some c →
  _isReady (kit p) = false →
  forallb (fun call => negb (isHandshake call)) calls = true →
  inits calls = 0%nat →
  _messageQueue (kit (fst (run env calls p)))
  = _messageQueue (kit p) ++ concat (map (queuedBy env c) calls).
Proof. apply run_queues. Qed.

(** X14 on the sample page. *)
Lemma queue_keeps_call_order_between_other_calls_witness :
  let calls := [SendData (JNum 1) JUndefined 300;
                Resize (JNum 480);
                Message (parent_command "reset" JNull);
                SendMessage (JStr "two") JUndefined 301;
                OnCommand (JStr "reset") 7%nat;
                Close;
                SendData (JNum 3) JUndefined 302] in
  map (fun m => getProp m "data") (_messageQueue (kit (fst (run sampleEnv calls started))))
  = [JNum 1; messagePayload (JStr "two") JUndefined; JNum 3].
Proof.
  cbv zeta.
  rewrite (queue_keeps_call_order_between_other_calls sampleEnv
             [SendData (JNum 1) JUndefined 300;
              Resize (JNum 480);
              Message (parent_command "reset" JNull);
              SendMessage (JStr "two") JUndefined 301;
              OnCommand (JStr "reset") 7%nat;
              Close;
              SendData (JNum 3) JUndefined 302]
             started sampleConfig eq_refl eq_refl eq_refl eq_refl).
  reflexivity.
Defined.
